(** * The Subversion command line client: subcommand table, "X:Y" arguments
      and option dispatch of [subversion/clients/cmdline/main.c].

    The development embeds the functions of [main.c] as Rocq functions and
    proves the properties its specification states about them.

    Conventions of the embedding.
    - A C string is the [string] of its characters before the terminating
      NUL; a [const char *] that may be NULL is an [option string].
    - [int], [svn_revnum_t], [time_t] and [apr_time_t] values are [Z].
    - A pointer into [svn_cl__cmd_table] is the index of the entry.
    - Memory pools have no observable effect on the results studied here and
      are left out. *)

From Stdlib Require Import ZArith String Ascii List Bool Lia Arith.
Import ListNotations.

Local Open Scope string_scope.
Local Open Scope Z_scope.

(** ** Characters and the C library *)

Module Libc.

(** The value of a character as an [int].  Whether [char] is signed does
    not matter for the comparisons made in [main.c]: a character outside
    ASCII is below '0' when [char] is signed and above '9' when it is not,
    and is a non-digit either way. *)
Definition char_code (c : ascii) : Z := Z.of_nat (nat_of_ascii c).

(** [s[i]]; the character at [strlen s] is the terminator. *)
Definition char_at (s : string) (i : nat) : ascii :=
  match String.get i s with
  | Some c => c
  | None => zero
  end.

Definition strlen (s : string) : Z := Z.of_nat (String.length s).

(** The strings that stand for a C string: the terminator is not one of
    their characters. *)
Fixpoint is_c_string (s : string) : bool :=
  match s with
  | EmptyString => true
  | String c s' => negb (Ascii.eqb c zero) && is_c_string s'
  end.

(** [strchr s c] for [c <> 0]: the offset of the first [c] in [s], or
    [None] for the null pointer. *)
Fixpoint strchr (s : string) (c : ascii) : option nat :=
  match s with
  | EmptyString => None
  | String a s' =>
      if Ascii.eqb a c then Some 0%nat else option_map S (strchr s' c)
  end.

(** [s + k], for [k <= strlen s]. *)
Fixpoint ptr_add (s : string) (k : nat) {struct k} : string :=
  match k with
  | O => s
  | S k' =>
      match s with
      | String _ s' => ptr_add s' k'
      | EmptyString => EmptyString
      end
  end.

(** The C string that starts where [s] does once [s[k]] has been
    overwritten with the terminator. *)
Fixpoint cut_at (s : string) (k : nat) {struct k} : string :=
  match k with
  | O => EmptyString
  | S k' =>
      match s with
      | String a s' => String a (cut_at s' k')
      | EmptyString => EmptyString
      end
  end.

(** [strcmp]: negative, zero or positive. *)
Definition strcmp (a b : string) : Z :=
  match String.compare a b with
  | Eq => 0
  | Lt => -1
  | Gt => 1
  end.

Definition isdigit (c : ascii) : bool :=
  (char_code "0" <=? char_code c) && (char_code c <=? char_code "9").

Definition isspace (c : ascii) : bool :=
  (char_code c =? 32) || ((9 <=? char_code c) && (char_code c <=? 13)).

Fixpoint skip_spaces (s : string) : string :=
  match s with
  | String c s' => if isspace c then skip_spaces s' else s
  | EmptyString => s
  end.

Fixpoint digits_value (s : string) (acc : Z) : Z :=
  match s with
  | String c s' =>
      if isdigit c
      then digits_value s' (10 * acc + (char_code c - char_code "0"))
      else acc
  | EmptyString => acc
  end.

Definition INT_MAX : Z := 2147483647.
Definition LONG_MIN : Z := - 2 ^ 63.
Definition LONG_MAX : Z := 2 ^ 63 - 1.

(** What [strtol] returns for a number: the number when a [long] holds it,
    and else the nearest [long]. *)
Definition strtol_value (v : Z) : Z := Z.max LONG_MIN (Z.min LONG_MAX v).

(** The conversion of a [long] to [int]: the low 32 bits, as a signed
    number. *)
Definition to_int (v : Z) : Z := (v + 2 ^ 31) mod 2 ^ 32 - 2 ^ 31.

(** [atoi]: optional white space, an optional sign, then decimal digits;
    the result is an [int].  A value that fits an [int] is returned as it
    is.  For the others, which the C standard leaves undefined, the model
    is the C library of the GNU system with a 64-bit [long], where [atoi]
    is [(int) strtol (s, NULL, 10)]: "2147483648" gives -2147483648 and
    "4294967295" gives -1. *)
Definition atoi (s : string) : Z :=
  to_int
    (strtol_value
       match skip_spaces s with
       | String "-" s' => - digits_value s' 0
       | String "+" s' => digits_value s' 0
       | s' => digits_value s' 0
       end).

End Libc.
Import Libc.

(** ** Option state *)

(** The youngest revision is expressed by this value of [svn_revnum_t].

    Modelled from the spec: the macro is declared in [svn_types.h], which is
    not part of [main.c]; the specification calls it the "latest" sentinel
    and keeps it apart from the concrete, non-negative revisions. *)
Definition SVN_INVALID_REVNUM : Z := -1.

(** [SVN_NO_ERROR] is 0; the two parsers return it as an [int]. *)
Definition SVN_NO_ERROR : Z := 0.

(** [svn_cl__opt_state_t] is declared in [cl.h]; these are the fields
    [main.c] stores into.  String buffers are [option string], [None] being
    the null pointer [memset] leaves there. *)
Record svn_cl__opt_state_t : Type := mk_opt_state {
  message : option string;
  start_revision : Z;
  end_revision : Z;
  start_date : Z;
  end_date : Z;
  verbose : bool;
  very_verbose : bool;
  update : bool;
  help : bool;
  quiet : bool;
  xml_file : option string;
  target : option string;
  filedata : option string;
  modified : bool;
  force : bool;
  recursive : bool;
  nonrecursive : bool;
  version : bool;
  auth_username : option string;
  auth_password : option string;
  extensions : option string
}.

Definition set_message v (o : svn_cl__opt_state_t) :=
  let (_, b, c, d, e, f, g, h, i, j, k, l, m, n, p, q, r, s, t, u, w) := o in
  mk_opt_state v b c d e f g h i j k l m n p q r s t u w.
Definition set_start_revision v (o : svn_cl__opt_state_t) :=
  let (a, _, c, d, e, f, g, h, i, j, k, l, m, n, p, q, r, s, t, u, w) := o in
  mk_opt_state a v c d e f g h i j k l m n p q r s t u w.
Definition set_end_revision v (o : svn_cl__opt_state_t) :=
  let (a, b, _, d, e, f, g, h, i, j, k, l, m, n, p, q, r, s, t, u, w) := o in
  mk_opt_state a b v d e f g h i j k l m n p q r s t u w.
Definition set_start_date v (o : svn_cl__opt_state_t) :=
  let (a, b, c, _, e, f, g, h, i, j, k, l, m, n, p, q, r, s, t, u, w) := o in
  mk_opt_state a b c v e f g h i j k l m n p q r s t u w.
Definition set_end_date v (o : svn_cl__opt_state_t) :=
  let (a, b, c, d, _, f, g, h, i, j, k, l, m, n, p, q, r, s, t, u, w) := o in
  mk_opt_state a b c d v f g h i j k l m n p q r s t u w.
Definition set_verbose v (o : svn_cl__opt_state_t) :=
  let (a, b, c, d, e, _, g, h, i, j, k, l, m, n, p, q, r, s, t, u, w) := o in
  mk_opt_state a b c d e v g h i j k l m n p q r s t u w.
Definition set_very_verbose v (o : svn_cl__opt_state_t) :=
  let (a, b, c, d, e, f, _, h, i, j, k, l, m, n, p, q, r, s, t, u, w) := o in
  mk_opt_state a b c d e f v h i j k l m n p q r s t u w.
Definition set_update v (o : svn_cl__opt_state_t) :=
  let (a, b, c, d, e, f, g, _, i, j, k, l, m, n, p, q, r, s, t, u, w) := o in
  mk_opt_state a b c d e f g v i j k l m n p q r s t u w.
Definition set_help v (o : svn_cl__opt_state_t) :=
  let (a, b, c, d, e, f, g, h, _, j, k, l, m, n, p, q, r, s, t, u, w) := o in
  mk_opt_state a b c d e f g h v j k l m n p q r s t u w.
Definition set_quiet v (o : svn_cl__opt_state_t) :=
  let (a, b, c, d, e, f, g, h, i, _, k, l, m, n, p, q, r, s, t, u, w) := o in
  mk_opt_state a b c d e f g h i v k l m n p q r s t u w.
Definition set_xml_file v (o : svn_cl__opt_state_t) :=
  let (a, b, c, d, e, f, g, h, i, j, _, l, m, n, p, q, r, s, t, u, w) := o in
  mk_opt_state a b c d e f g h i j v l m n p q r s t u w.
Definition set_target v (o : svn_cl__opt_state_t) :=
  let (a, b, c, d, e, f, g, h, i, j, k, _, m, n, p, q, r, s, t, u, w) := o in
  mk_opt_state a b c d e f g h i j k v m n p q r s t u w.
Definition set_filedata v (o : svn_cl__opt_state_t) :=
  let (a, b, c, d, e, f, g, h, i, j, k, l, _, n, p, q, r, s, t, u, w) := o in
  mk_opt_state a b c d e f g h i j k l v n p q r s t u w.
Definition set_modified v (o : svn_cl__opt_state_t) :=
  let (a, b, c, d, e, f, g, h, i, j, k, l, m, _, p, q, r, s, t, u, w) := o in
  mk_opt_state a b c d e f g h i j k l m v p q r s t u w.
Definition set_force v (o : svn_cl__opt_state_t) :=
  let (a, b, c, d, e, f, g, h, i, j, k, l, m, n, _, q, r, s, t, u, w) := o in
  mk_opt_state a b c d e f g h i j k l m n v q r s t u w.
Definition set_recursive v (o : svn_cl__opt_state_t) :=
  let (a, b, c, d, e, f, g, h, i, j, k, l, m, n, p, _, r, s, t, u, w) := o in
  mk_opt_state a b c d e f g h i j k l m n p v r s t u w.
Definition set_nonrecursive v (o : svn_cl__opt_state_t) :=
  let (a, b, c, d, e, f, g, h, i, j, k, l, m, n, p, q, _, s, t, u, w) := o in
  mk_opt_state a b c d e f g h i j k l m n p q v s t u w.
Definition set_version v (o : svn_cl__opt_state_t) :=
  let (a, b, c, d, e, f, g, h, i, j, k, l, m, n, p, q, r, _, t, u, w) := o in
  mk_opt_state a b c d e f g h i j k l m n p q r v t u w.
Definition set_auth_username v (o : svn_cl__opt_state_t) :=
  let (a, b, c, d, e, f, g, h, i, j, k, l, m, n, p, q, r, s, _, u, w) := o in
  mk_opt_state a b c d e f g h i j k l m n p q r s v u w.
Definition set_auth_password v (o : svn_cl__opt_state_t) :=
  let (a, b, c, d, e, f, g, h, i, j, k, l, m, n, p, q, r, s, t, _, w) := o in
  mk_opt_state a b c d e f g h i j k l m n p q r s t v w.
Definition set_extensions v (o : svn_cl__opt_state_t) :=
  let (a, b, c, d, e, f, g, h, i, j, k, l, m, n, p, q, r, s, t, u, _) := o in
  mk_opt_state a b c d e f g h i j k l m n p q r s t u v.

(** ** Parsing "X:Y"-style arguments *)

(** The test [( *p < '0') || ( *p > '9')]. *)
Definition not_a_digit (c : ascii) : bool :=
  (char_code c <? char_code "0") || (char_code c >? char_code "9").

Definition char_is (s : string) (i : nat) (c : ascii) : bool :=
  Ascii.eqb (char_at s i) c.

(** The block entered at the first character of [rev] when it is not a
    digit: "head", "h", or some variation thereof. *)
Definition validate_head (rev : string) : Z :=
  let len := strlen rev in
  if negb (len =? 1) && negb (len =? 4) then 1
  else if (len =? 1) && (char_is rev 0 "h" || char_is rev 0 "H") then 0
  else if (char_is rev 0 "h" || char_is rev 0 "H")
          && (char_is rev 1 "e" || char_is rev 1 "E")
          && (char_is rev 2 "a" || char_is rev 2 "A")
          && (char_is rev 3 "d" || char_is rev 3 "D") then 0
  else 1.

(** The [for] loop of [validate_revision]: [p] is the rest of [rev] from
    offset [i] on. *)
Fixpoint validate_revision_loop (rev : string) (i : nat) (p : string) : Z :=
  match p with
  | EmptyString => 0
  | String c p' =>
      if not_a_digit c then
        if negb (Nat.eqb i 0) then 1 else validate_head rev
      else validate_revision_loop rev (S i) p'
  end.

(** Non-zero if [rev] is not all digits, nor "head", "h", nor some case
    variation of same; otherwise 0. *)
Definition validate_revision (rev : string) : Z :=
  validate_revision_loop rev 0 rev.

(** The value one half of the argument stands for; [parse_revision] has
    this conditional once for each half. *)
Definition revision_of (rev : string) : Z :=
  if char_is rev 0 "h" || char_is rev 0 "H" || char_is rev 0 zero
  then SVN_INVALID_REVNUM
  else atoi rev.

(** The two strings [left_rev] and [right_rev] point to, or [None] where
    the function returns 1 for a second colon. *)
Definition split_arg (arg : string) : option (string * string) :=
  match strchr arg ":" with
  | Some sep =>
      match strchr (ptr_add arg (S sep)) ":" with
      | Some _ => None
      | None => Some (cut_at arg sep, ptr_add arg (S sep))
      end
  | None => Some (arg, arg)
  end.

Definition parse_revision (os : svn_cl__opt_state_t) (arg : string)
  : Z * svn_cl__opt_state_t :=
  match split_arg arg with
  | None => (1, os)
  | Some (left_rev, right_rev) =>
      if negb (validate_revision left_rev =? 0)
         || negb (validate_revision right_rev =? 0)
      then (1, os)
      else
        let os := set_start_revision (revision_of left_rev) os in
        let os := set_end_revision (revision_of right_rev) os in
        (SVN_NO_ERROR, os)
  end.

(** ** Command dispatch *)

(** The codes of the switches that have no short form.

    Modelled from the spec: the enumeration is declared in [cl.h], which is
    not part of [main.c]; the specification asks for distinct synthetic
    integers above 255.  They are numbered here in the order in which
    [svn_cl__options] lists them. *)
Definition svn_cl__force_opt : Z := 256.
Definition svn_cl__recursive_opt : Z := 257.
Definition svn_cl__xml_file_opt : Z := 258.
Definition svn_cl__locale_opt : Z := 259.
Definition svn_cl__version_opt : Z := 260.
Definition svn_cl__auth_username_opt : Z := 261.
Definition svn_cl__auth_password_opt : Z := 262.

(** A character constant used as an option code. *)
Definition ch (c : ascii) : Z := char_code c.

(** The number of entries of [svn_cl__options], its terminator included. *)
Definition SVN_CL__MAX_OPTS : nat := 20.

(** The command routines the table points to; they are defined in other
    files of the client. *)
Inductive svn_cl__cmd_proc_t : Type :=
| svn_cl__add | svn_cl__checkout | svn_cl__cleanup | svn_cl__commit
| svn_cl__copy | svn_cl__delete | svn_cl__diff | svn_cl__help
| svn_cl__import | svn_cl__log | svn_cl__mkdir | svn_cl__move
| svn_cl__propdel | svn_cl__propedit | svn_cl__propget | svn_cl__proplist
| svn_cl__propset | svn_cl__revert | svn_cl__status | svn_cl__switch
| svn_cl__update.

(** One element of the command dispatch table. *)
Record svn_cl__cmd_desc_t : Type := mk_cmd_desc {
  name : option string;
  is_alias : bool;
  cmd_func : option svn_cl__cmd_proc_t;
  help_text : option string;
  valid_options : list Z
}.

(** An initializer of [valid_options]: the slots not listed are 0. *)
Definition opts (l : list Z) : list Z :=
  firstn SVN_CL__MAX_OPTS (l ++ repeat 0 SVN_CL__MAX_OPTS).

Definition command (n : string) (f : svn_cl__cmd_proc_t) (h : string)
  (o : list Z) : svn_cl__cmd_desc_t :=
  mk_cmd_desc (Some n) false (Some f) (Some h) (opts o).

Definition alias (n : string) : svn_cl__cmd_desc_t :=
  mk_cmd_desc (Some n) true None None (opts [0]).

(** Map names to command routine, etc.  The help texts are those of the
    source, each "\n" being a line break. *)
Definition svn_cl__cmd_table : list svn_cl__cmd_desc_t :=
  [ command "add" svn_cl__add
      "Add new files and directories to version control.
usage: add [TARGETS]
"
      [ch "r"];
    alias "ad";
    alias "new";
    command "checkout" svn_cl__checkout
      "Check out a working directory from a repository.
usage: checkout REPOS_URL1 [REPOS_URL2 REPOS_URL3...]
"
      [svn_cl__auth_username_opt; svn_cl__auth_password_opt;
       svn_cl__xml_file_opt; ch "d"; ch "q"; ch "n"; ch "D"; ch "r"];
    alias "co";
    command "cleanup" svn_cl__cleanup
      "Recursively clean up the working copy, removing locks, resuming
unfinished operations, etc.
usage: cleanup [TARGETS]
"
      [0];
    command "commit" svn_cl__commit
      "Commit changes from your working copy to the repository.
usage: commit [TARGETS]
"
      [ch "F"; ch "m"; svn_cl__auth_username_opt; svn_cl__auth_password_opt;
       svn_cl__xml_file_opt; ch "q"; ch "r"];
    alias "ci";
    command "copy" svn_cl__copy
      "Duplicate something in your working copy, remembering history.
usage: copy SRC_PATH DST_PATH.
"
      [ch "F"; ch "m"; ch "r"; svn_cl__auth_username_opt;
       svn_cl__auth_password_opt];
    alias "cp";
    command "delete" svn_cl__delete
      "Remove files and directories from version control.
usage: delete [TARGET]
       delete REPOS_URL1 [[REPOS_URL2] ... ]
"
      [ch "F"; ch "m"; svn_cl__auth_username_opt; svn_cl__auth_password_opt;
       svn_cl__force_opt];
    alias "del";
    alias "remove";
    alias "rm";
    command "diff" svn_cl__diff
      "Display local changes in the working copy, or changes between the
working copy and the repository if a revision is given.
usage: diff [-r REV] [TARGETS]
"
      [svn_cl__auth_username_opt; svn_cl__auth_password_opt;
       ch "x"; ch "r"; ch "d"; ch "n"];
    alias "di";
    command "help" svn_cl__help
      "Display this usage message.
usage: help [SUBCOMMAND1 [SUBCOMMAND2] ...]
"
      [svn_cl__version_opt];
    alias "?";
    alias "h";
    command "import" svn_cl__import
      "Import a file or tree into the repository.
usage: import REPOS_URL [PATH] [NEW_ENTRY_IN_REPOS] 
"
      [ch "F"; ch "m"; svn_cl__auth_username_opt; svn_cl__auth_password_opt;
       svn_cl__xml_file_opt; ch "q"; ch "r"];
    command "log" svn_cl__log
      "Show the log messages for a set of revision(s) and/or file(s).
usage: log [-r REV1([:)REV2]] [PATH1 [PATH2] ...] 
"
      [svn_cl__auth_username_opt; svn_cl__auth_password_opt; ch "r"; ch "v"];
    command "mkdir" svn_cl__mkdir
      "Create a new directory under revision control.
usage: mkdir [NEW_DIR | REPOS_URL].
"
      [svn_cl__auth_username_opt; svn_cl__auth_password_opt; ch "m"; ch "F"];
    command "move" svn_cl__move
      "Move or rename something working copy.
usage: move SRC_PATH DST_PATH.
"
      [svn_cl__auth_username_opt; svn_cl__auth_password_opt;
       ch "m"; ch "F"; ch "r"];
    alias "mv";
    alias "rename";
    alias "ren";
    command "propdel" svn_cl__propdel
      "Remove property PROPNAME on files and directories.
usage: propdel PROPNAME [TARGETS]
"
      [ch "q"; svn_cl__recursive_opt];
    alias "pdel";
    command "propedit" svn_cl__propedit
      "Edit property PROPNAME with $EDITOR on files and directories.
usage: propedit PROPNAME [TARGETS]
"
      [0];
    alias "pedit";
    alias "pe";
    command "propget" svn_cl__propget
      "Get the value of property PROPNAME on files and directories.
usage: propget PROPNAME [TARGETS]
"
      [svn_cl__recursive_opt];
    alias "pget";
    alias "pg";
    command "proplist" svn_cl__proplist
      "List all properties for given files and directories.
usage: proplist [TARGETS]
"
      [svn_cl__recursive_opt];
    alias "plist";
    alias "pl";
    command "propset" svn_cl__propset
      "Set property PROPNAME to PROPVAL on files and directories.
usage: propset PROPNAME [PROPVAL | -F/--filedata VALFILE] [TARGETS]
"
      [ch "F"; ch "q"; svn_cl__recursive_opt];
    alias "pset";
    alias "ps";
    command "revert" svn_cl__revert
      "Restore pristine working copy file (undo all local edits)
usage: revert [TARGETS]
"
      [svn_cl__recursive_opt];
    command "status" svn_cl__status
      "Print the status of working copy files and directories.
usage: status [TARGETS]
"
      [svn_cl__auth_username_opt; svn_cl__auth_password_opt;
       ch "u"; ch "n"; ch "v"; ch "q"];
    alias "stat";
    alias "st";
    command "switch" svn_cl__switch
      "Update existing working copy files and directories to become
a working copy of a different repository URL.
usage: switch [TARGET] REPOS_URL
"
      [0];
    alias "sw";
    command "update" svn_cl__update
      "Bring changes from the repository into the working copy.
usage: update [TARGETS]
"
      [svn_cl__auth_username_opt; svn_cl__auth_password_opt;
       ch "r"; ch "D"; ch "n"; svn_cl__xml_file_opt];
    alias "up";
    mk_cmd_desc None false None None (opts [0]) ].

(** A [const svn_cl__cmd_desc_t *] computed by the lookup functions: the
    null pointer, the address of entry [i], or an address that is not that
    of an entry, which C gives no meaning to. *)
Inductive cmd_ptr : Type :=
| Null
| Entry (i : nat)
| Outside.

Section Lookup.

(** The functions read the global table; it is a variable here so that
    the properties that hold for every table are stated as such. *)
Variable table : list svn_cl__cmd_desc_t.

(** The [while] loop of [get_cmd_table_entry], at index [i] with [rest]
    the entries from [i] on.  It stops at the entry without a name; in a
    table that has none it would read past the array. *)
Fixpoint table_scan (cmd_name : string) (rest : list svn_cl__cmd_desc_t)
  (i : nat) : cmd_ptr :=
  match rest with
  | [] => Outside
  | d :: rest' =>
      match name d with
      | None => Null
      | Some n =>
          if strcmp cmd_name n =? 0 then Entry i
          else table_scan cmd_name rest' (S i)
      end
  end.

(** Return the entry whose name matches [cmd_name], or null if none. *)
Definition get_cmd_table_entry (cmd_name : option string) : cmd_ptr :=
  match cmd_name with
  | None => Null
  | Some n => table_scan n table 0
  end.

(** [while (cmd_desc->is_alias) cmd_desc--;] from entry [i]. *)
Fixpoint canonical_walk (i : nat) : cmd_ptr :=
  match nth_error table i with
  | None => Outside
  | Some d =>
      if is_alias d then
        match i with
        | O => Outside
        | S j => canonical_walk j
        end
      else Entry i
  end.

Definition svn_cl__get_canonical_command (cmd : option string) : cmd_ptr :=
  match get_cmd_table_entry cmd with
  | Null => Null
  | Entry i => canonical_walk i
  | Outside => Outside
  end.

End Lookup.

(** ** Errors, output and the command line *)

(** The error codes [main.c] names, among those of [svn_error_codes.h]. *)
Inductive apr_status_t : Type :=
| SVN_ERR_CL_ARG_PARSING_ERROR
| SVN_ERR_CL_LOG_MESSAGE_IS_VERSIONED_FILE
| Other_status (code : Z).

Record svn_error_t : Type := mk_error {
  apr_err : apr_status_t;
  err_message : string
}.

Definition svn_error_create (code : apr_status_t) (msg : string)
  : svn_error_t := mk_error code msg.

Definition is_arg_parsing_error (c : apr_status_t) : bool :=
  match c with
  | SVN_ERR_CL_ARG_PARSING_ERROR => true
  | _ => false
  end.

Inductive stream : Type := stdout | stderr.

(** What a run of [main] does that can be seen from outside, in order.
    The texts printed are given without their final line break. *)
Inductive event : Type :=
| Usage                                     (* svn_cl__help (NULL, NULL, pool) *)
| Report (err : svn_error_t) (to : stream)  (* svn_handle_error (err, to, ...) *)
| Fprintf (to : stream) (text : string)     (* fprintf (to, ...) *)
| Feedback_init                             (* svn_cl__init_feedback_vtable *)
| Call (f : svn_cl__cmd_proc_t) (args : list string)
    (opt_state : svn_cl__opt_state_t).      (* ( *subcommand->cmd_func) (...) *)

Definition EXIT_SUCCESS : Z := 0.
Definition EXIT_FAILURE : Z := 1.

(** How [main] ends: it returns a status, or it does something C gives no
    meaning to (a call through a null or stray pointer). *)
Inductive ending : Type :=
| Exit (status : Z)
| Undefined.

Record outcome : Type := mk_outcome {
  result : ending;
  trace : list event
}.

(** [apr_getopt_long] is APR's.  Each call either hands out one option, or
    says that the options are exhausted, or fails; on a finite [argv] it
    does one of the last two after finitely many calls.  A command line is
    given by what the calls answer for it: the options handed out, in order,
    each with its argument (unread by [main] for a switch that takes none),
    whether the last call says [APR_EOF], and the arguments
    [argv[os->ind]], ... that are left then. *)
Record command_line : Type := mk_command_line {
  argc : Z;
  options : list (Z * string);
  ends_with_eof : bool;
  arguments : list string
}.

Definition quote : string := String (ascii_of_nat 34) EmptyString.

Definition is_call (e : event) : bool :=
  match e with
  | Call _ _ _ => true
  | _ => false
  end.

Definition is_stderr_report_of (c : apr_status_t) (e : event) : bool :=
  match e with
  | Report err stderr =>
      match apr_err err, c with
      | SVN_ERR_CL_ARG_PARSING_ERROR, SVN_ERR_CL_ARG_PARSING_ERROR => true
      | SVN_ERR_CL_LOG_MESSAGE_IS_VERSIONED_FILE,
        SVN_ERR_CL_LOG_MESSAGE_IS_VERSIONED_FILE => true
      | Other_status a, Other_status b => a =? b
      | _, _ => false
      end
  | _ => false
  end.

(** The option state and the local flag of [main] during the scan, with
    the output so far. *)
Record scan_state : Type := mk_scan {
  opt_state : svn_cl__opt_state_t;
  log_under_version_control : bool;
  printed : list event
}.

(** [memset (&opt_state, 0, sizeof (opt_state))] and the two assignments
    that follow it. *)
Definition zeroed_opt_state : svn_cl__opt_state_t :=
  mk_opt_state None 0 0 0 0 false false false false false None None None
    false false false false false None None None.

Definition initial_opt_state : svn_cl__opt_state_t :=
  set_end_revision 1
    (set_start_revision SVN_INVALID_REVNUM zeroed_opt_state).

Section Client.

(** *** Collaborators *)

(** [svn_parse_date], from getdate.y: the [time_t] a text stands for,
    -1 when it cannot be read as a date. *)
Variable svn_parse_date : string -> Z.

(** [apr_ansi_time_to_apr_time]: the [apr_time_t] stored for a
    [time_t]. *)
Variable apr_ansi_time_to_apr_time : Z -> Z.

(** [svn_string_from_file]: the contents of the file, or an error. *)
Variable svn_string_from_file : string -> svn_error_t + string.

(** [svn_wc_entry]: an error, or whether an entry was found. *)
Variable svn_wc_entry : string -> svn_error_t + bool.

(** [setlocale (LC_ALL, name)]: whether the result is non-null. *)
Variable setlocale : string -> bool.

(** The command routines: the error one returns, if any, from the
    arguments left in [os] and the option state. *)
Variable run : svn_cl__cmd_proc_t -> list string -> svn_cl__opt_state_t ->
               option svn_error_t.

(** *** Date ranges *)

Definition parse_date (os : svn_cl__opt_state_t) (arg : string)
  : Z * svn_cl__opt_state_t :=
  match strchr arg ":" with
  | Some sep =>
      match strchr (ptr_add arg (S sep)) ":" with
      | Some _ => (1, os)
      | None =>
          let left_date := cut_at arg sep in
          let right_date := ptr_add arg (S sep) in
          let os :=
            if negb (char_is left_date 0 zero)
            then set_start_date
                   (apr_ansi_time_to_apr_time (svn_parse_date left_date)) os
            else os in
          let os :=
            if negb (char_is right_date 0 zero)
            then set_end_date
                   (apr_ansi_time_to_apr_time (svn_parse_date right_date)) os
            else os in
          (SVN_NO_ERROR, os)
      end
  | None =>
      let os :=
        set_start_date (apr_ansi_time_to_apr_time (svn_parse_date arg)) os in
      let os := set_end_date (start_date os) os in
      (SVN_NO_ERROR, os)
  end.

(** *** The option loop *)

Definition set_opt (f : svn_cl__opt_state_t -> svn_cl__opt_state_t)
  (s : scan_state) : scan_state :=
  mk_scan (f (opt_state s)) (log_under_version_control s) (printed s).

Definition say (e : event) (s : scan_state) : scan_state :=
  mk_scan (opt_state s) (log_under_version_control s)
    (printed s ++ [e])%list.

(** The [switch] on [opt_id], for one option: the state to go on with,
    or the output with which [main] returns [EXIT_FAILURE]. *)
Definition switch_opt_id (opt_id : Z) (opt_arg : string) (s : scan_state)
  : scan_state + list event :=
  if opt_id =? ch "m" then
    inl (set_opt (set_message (Some opt_arg)) s)
  else if opt_id =? ch "r" then
    let (ret, os) := parse_revision (opt_state s) opt_arg in
    if negb (ret =? 0) then
      inr (printed s ++
           [Report (svn_error_create SVN_ERR_CL_ARG_PARSING_ERROR
                      ("Syntax error in revision argument "
                         ++ quote ++ opt_arg ++ quote)) stderr])%list
    else inl (set_opt (fun _ => os) s)
  else if opt_id =? ch "D" then
    let (ret, os) := parse_date (opt_state s) opt_arg in
    if negb (ret =? 0) then
      inr (printed s ++
           [Report (svn_error_create SVN_ERR_CL_ARG_PARSING_ERROR
                      ("Unable to parse " ++ quote ++ opt_arg ++ quote))
              stderr])%list
    else inl (set_opt (fun _ => os) s)
  else if opt_id =? ch "v" then inl (set_opt (set_verbose true) s)
  else if opt_id =? ch "V" then inl (set_opt (set_very_verbose true) s)
  else if opt_id =? ch "u" then inl (set_opt (set_update true) s)
  else if (opt_id =? ch "h") || (opt_id =? ch "?") then
    inl (set_opt (set_help true) s)
  else if opt_id =? ch "q" then inl (set_opt (set_quiet true) s)
  else if opt_id =? svn_cl__xml_file_opt then
    inl (set_opt (set_xml_file (Some opt_arg)) s)
  else if opt_id =? ch "d" then
    inl (set_opt (set_target (Some opt_arg)) s)
  else if opt_id =? ch "F" then
    match svn_string_from_file opt_arg with
    | inl err => inr (printed s ++ [Report err stdout])%list
    | inr data =>
        let s := set_opt (set_filedata (Some data)) s in
        match svn_wc_entry opt_arg with
        | inr true => inl (mk_scan (opt_state s) true (printed s))
        | _ => inl s
        end
    end
  else if opt_id =? ch "M" then inl (set_opt (set_modified true) s)
  else if opt_id =? svn_cl__force_opt then
    inl (set_opt (set_force true) s)
  else if opt_id =? svn_cl__recursive_opt then
    inl (set_opt (set_recursive true) s)
  else if opt_id =? ch "n" then inl (set_opt (set_nonrecursive true) s)
  else if opt_id =? svn_cl__version_opt then
    inl (set_opt (fun os => set_help true (set_version true os)) s)
  else if opt_id =? svn_cl__auth_username_opt then
    inl (set_opt (set_auth_username (Some opt_arg)) s)
  else if opt_id =? svn_cl__auth_password_opt then
    inl (set_opt (set_auth_password (Some opt_arg)) s)
  else if opt_id =? svn_cl__locale_opt then
    if negb (setlocale opt_arg) then
      inl (say (Report
                  (svn_error_create SVN_ERR_CL_ARG_PARSING_ERROR
                     ("The locale `" ++ opt_arg ++ "' can not be set"))
                  stderr) s)
    else inl s
  else if opt_id =? ch "x" then
    inl (set_opt (set_extensions (Some opt_arg)) s)
  else inl s.

(** The [while (1)] loop over what [apr_getopt_long] answers. *)
Fixpoint scan_options (answers : list (Z * string)) (eof : bool)
  (s : scan_state) : scan_state + list event :=
  match answers with
  | [] => if eof then inl s else inr (printed s ++ [Usage])%list
  | (opt_id, opt_arg) :: answers' =>
      match switch_opt_id opt_id opt_arg s with
      | inl s' => scan_options answers' eof s'
      | inr out => inr out
      end
  end.

(** *** Main *)

Variable table : list svn_cl__cmd_desc_t.

(** The part of [main] that follows the choice of the subcommand: the
    check of the log message file, then the call. *)
Definition dispatch (subcommand : nat) (args : list string)
  (s : scan_state) : outcome :=
  if log_under_version_control s && negb (force (opt_state s)) then
    mk_outcome (Exit EXIT_FAILURE)
      (printed s ++
       [Report (svn_error_create SVN_ERR_CL_LOG_MESSAGE_IS_VERSIONED_FILE
                  "Log message file is a versioned file; use `--force' to override.")
          stderr])%list
  else
    match option_map cmd_func (nth_error table subcommand) with
    | Some (Some f) =>
        let out := (printed s ++ [Call f args (opt_state s)])%list in
        match run f args (opt_state s) with
        | Some err =>
            if negb (is_arg_parsing_error (apr_err err))
            then mk_outcome (Exit EXIT_FAILURE)
                   (out ++ [Report err stderr])%list
            else mk_outcome (Exit EXIT_FAILURE) out
        | None => mk_outcome (Exit EXIT_SUCCESS) out
        end
    | _ => mk_outcome Undefined (printed s)
    end.

(** The part of [main] that follows the option loop. *)
Definition after_scan (args : list string) (s : scan_state) : outcome :=
  let subcommand :=
    if help (opt_state s)
    then svn_cl__get_canonical_command table (Some "help")
    else Null in
  let s := if negb (quiet (opt_state s)) then say Feedback_init s else s in
  match subcommand with
  | Entry i => dispatch i args s
  | Outside => mk_outcome Undefined (printed s)
  | Null =>
      match args with
      | [] =>
          mk_outcome (Exit EXIT_FAILURE)
            (printed s ++
             [Fprintf stderr "subcommand argument required"; Usage])%list
      | first_arg :: args' =>
          match svn_cl__get_canonical_command table (Some first_arg) with
          | Null =>
              mk_outcome (Exit EXIT_FAILURE)
                (printed s ++
                 [Fprintf stderr ("unknown command: " ++ first_arg); Usage])%list
          | Entry i => dispatch i args' s
          | Outside => mk_outcome Undefined (printed s)
          end
      end
  end.

Definition main (cl : command_line) : outcome :=
  if argc cl <=? 1 then mk_outcome (Exit EXIT_FAILURE) [Usage]
  else
    match scan_options (options cl) (ends_with_eof cl)
            (mk_scan initial_opt_state false []) with
    | inr out => mk_outcome (Exit EXIT_FAILURE) out
    | inl s => after_scan (arguments cl) s
    end.

End Client.

(** ** The grammar of the specification *)

(** These definitions follow the words of the specification, not the code;
    the theorems below compare the parsers with them. *)
Module Grammar.

(** The text split at every ':'. *)
Fixpoint fields (s : string) : list string :=
  match s with
  | EmptyString => [EmptyString]
  | String c s' =>
      if Ascii.eqb c ":" then EmptyString :: fields s'
      else match fields s' with
           | f :: fs => String c f :: fs
           | [] => [String c EmptyString]
           end
  end.

Fixpoint all_digits (s : string) : bool :=
  match s with
  | EmptyString => true
  | String c s' => isdigit c && all_digits s'
  end.

(** The lower-case form of an upper-case letter. *)
Definition lower (c : ascii) : ascii :=
  if (char_code "A" <=? char_code c) && (char_code c <=? char_code "Z")
  then ascii_of_nat (nat_of_ascii c + 32)
  else c.

Fixpoint lowercase (s : string) : string :=
  match s with
  | EmptyString => EmptyString
  | String c s' => String (lower c) (lowercase s')
  end.

(** A case-insensitive match against the literal forms "h" or "head". *)
Definition is_head_form (s : string) : bool :=
  String.eqb (lowercase s) "h" || String.eqb (lowercase s) "head".

(** A half is all-digit, or a head form, or empty. *)
Definition valid_half (s : string) : bool :=
  all_digits s || is_head_form s || String.eqb s "".

(** The integer value of a digit string, by the weight of each place. *)
Fixpoint decimal (s : string) : Z :=
  match s with
  | EmptyString => 0
  | String c s' =>
      (char_code c - char_code "0") * 10 ^ Z.of_nat (String.length s')
      + decimal s'
  end.

(** An empty half or a head-form half maps to the "latest" sentinel; a
    digit string maps to its integer value. *)
Definition decode (s : string) : Z :=
  if String.eqb s "" || is_head_form s then SVN_INVALID_REVNUM
  else decimal s.

(** A second ':' is a syntax error, and so is an invalid half. *)
Definition rejects (arg : string) : bool :=
  (2 <? length (fields arg))%nat || negb (forallb valid_half (fields arg)).

(** Absence of ':' means the whole string is both endpoints. *)
Definition RevisionRangeParser (arg : string) : option (Z * Z) :=
  if rejects arg then None
  else Some (decode (hd EmptyString (fields arg)),
             decode (last (fields arg) EmptyString)).

End Grammar.
Import Grammar.

(** ** The revisions the parser stores *)

(** What [parse_revision] stores for a half that passed validation: the
    sentinel for an empty half or a head form, and for a digit string the
    [int] that [atoi] makes of its value. *)
Definition stored_revision (s : string) : Z :=
  if String.eqb s "" || is_head_form s then SVN_INVALID_REVNUM
  else to_int (strtol_value (decimal s)).

(** The two revisions [parse_revision] stores for an argument, [None]
    when it rejects the argument. *)
Definition stored_range (arg : string) : option (Z * Z) :=
  if rejects arg then None
  else Some (stored_revision (hd EmptyString (fields arg)),
             stored_revision (last (fields arg) EmptyString)).

(** A half that, when it is a digit string, has a value within the native
    integer range. *)
Definition fits_int (s : string) : bool :=
  negb (all_digits s) || (decimal s <=? INT_MAX).

(** An argument all of whose digit strings are within the native integer
    range. *)
Definition within_int_range (arg : string) : bool :=
  forallb fits_int (fields arg).

(** ** What the properties of [main] are stated with *)

(** The calls of command routines through [cmd_func] among the events of
    a run.  The usage message, for which [main] calls [svn_cl__help]
    directly, is the event [Usage]. *)
Definition calls (out : list event) : list event := filter is_call out.

(** An option, as [apr_getopt_long] hands it out, is the force switch. *)
Definition is_force (o : Z * string) : bool := fst o =? svn_cl__force_opt.

(** An option is the revision switch. *)
Definition is_revision (o : Z * string) : bool := fst o =? ch "r".

(** An option is the file-content switch and names a file for which
    [svn_wc_entry] finds an entry. *)
Definition names_versioned_file (svn_wc_entry : string -> svn_error_t + bool)
  (o : Z * string) : bool :=
  (fst o =? ch "F")
  && match svn_wc_entry (snd o) with
     | inr true => true
     | _ => false
     end.

(** The state of the scan without the diagnostics printed so far. *)
Definition core (s : scan_state)
  : svn_cl__opt_state_t * bool * list event :=
  (opt_state s, log_under_version_control s, calls (printed s)).

(** The error with which [main] refuses a versioned log message file. *)
Definition versioned_file_error : svn_error_t :=
  svn_error_create SVN_ERR_CL_LOG_MESSAGE_IS_VERSIONED_FILE
    "Log message file is a versioned file; use `--force' to override.".

(** The error reported when a locale can not be set. *)
Definition locale_error (locale : string) : svn_error_t :=
  svn_error_create SVN_ERR_CL_ARG_PARSING_ERROR
    ("The locale `" ++ locale ++ "' can not be set").

(** ** Checks on the declared table *)

(** Decidable properties of the entry at one index of [svn_cl__cmd_table];
    each is evaluated at every index of the table in the proofs below. *)
Module Checks.

Definition ptr_eqb (a b : cmd_ptr) : bool :=
  match a, b with
  | Null, Null => true
  | Entry i, Entry j => Nat.eqb i j
  | Outside, Outside => true
  | _, _ => false
  end.

Definition name_eqb (a b : option string) : bool :=
  match a, b with
  | Some x, Some y => String.eqb x y
  | None, None => true
  | _, _ => false
  end.

(** The entry at [i] has a name. *)
Definition named (i : nat) : bool :=
  match nth_error svn_cl__cmd_table i with
  | Some d => match name d with Some _ => true | None => false end
  | None => false
  end.

(** The name of the entry at [i] is found at [i], and not before. *)
Definition found_at_itself (i : nat) : bool :=
  match nth_error svn_cl__cmd_table i with
  | Some d => ptr_eqb (get_cmd_table_entry svn_cl__cmd_table (name d))
                (Entry i)
  | None => false
  end.

(** The canonical entry of the name at [i] is not an alias, has a
    routine, is its own canonical entry, and is named otherwise than an
    alias at [i]. *)
Definition canonical_ok (i : nat) : bool :=
  match nth_error svn_cl__cmd_table i with
  | Some e =>
      match svn_cl__get_canonical_command svn_cl__cmd_table (name e) with
      | Entry c =>
          match nth_error svn_cl__cmd_table c with
          | Some d =>
              negb (is_alias d)
              && match cmd_func d with Some _ => true | None => false end
              && ptr_eqb
                   (svn_cl__get_canonical_command svn_cl__cmd_table (name d))
                   (Entry c)
              && (negb (is_alias e) || negb (name_eqb (name d) (name e)))
          | None => false
          end
      | _ => false
      end
  | None => false
  end.

End Checks.

(** ** A sample environment *)

(** Collaborators with which the functions can be run: one date is
    readable, one file is under version control, one locale exists, and
    every command succeeds. *)
Module Sample.

Definition svn_parse_date (text : string) : Z :=
  if String.eqb text "2020-01-01" then 1577836800 else -1.

Definition apr_ansi_time_to_apr_time (t : Z) : Z := t * 1000000.

Definition svn_string_from_file (path : string) : svn_error_t + string :=
  if String.eqb path "missing.txt"
  then inl (mk_error (Other_status 2) "No such file or directory")
  else inr "Fix the frobnicator.".

Definition svn_wc_entry (path : string) : svn_error_t + bool :=
  inr (String.eqb path "log.txt").

Definition setlocale (locale : string) : bool := String.eqb locale "C".

Definition run (f : svn_cl__cmd_proc_t) (args : list string)
  (os : svn_cl__opt_state_t) : option svn_error_t := None.

Definition main : command_line -> outcome :=
  main svn_parse_date apr_ansi_time_to_apr_time svn_string_from_file
    svn_wc_entry setlocale run svn_cl__cmd_table.

Definition parse_date :=
  parse_date svn_parse_date apr_ansi_time_to_apr_time.

End Sample.

(** ** Option table and help *)

Module Apr.

(** [apr_getopt_option_t], as the initializers of [svn_cl__options] fill
    it. *)
Record getopt_option_t : Type := mk_option {
  name : option string;
  optch : Z;
  has_arg : Z;
  description : option string
}.

End Apr.

Definition switch_entry (n : string) (code has_arg : Z) (d : string)
  : Apr.getopt_option_t :=
  Apr.mk_option (Some n) code has_arg (Some d).

Definition svn_cl__options : list Apr.getopt_option_t :=
  [ switch_entry "destination" (ch "d") 1
      "put results in newly-created directory name";
    switch_entry "force" svn_cl__force_opt 0 "force operation to run";
    switch_entry "help" (ch "h") 0 "show help on a subcommand";
    switch_entry "message" (ch "m") 1 "specify commit message";
    switch_entry "quiet" (ch "q") 0 "print as little as possible";
    switch_entry "recursive" svn_cl__recursive_opt 0 "descend recursively";
    switch_entry "nonrecursive" (ch "n") 0 "operate on single directory only";
    switch_entry "revision" (ch "r") 1
      "specify revision number (or X:Y range)";
    switch_entry "date" (ch "D") 1 "specify a date (instead of a revision)";
    switch_entry "filedata" (ch "F") 1 "read data from specified file";
    switch_entry "xml-file" svn_cl__xml_file_opt 1
      "read/write xml to specified file";
    switch_entry "locale" svn_cl__locale_opt 1 "specify a locale to use";
    switch_entry "version" svn_cl__version_opt 0 "print client version info";
    switch_entry "verbose" (ch "v") 0 "print extra information";
    switch_entry "very-verbose" (ch "V") 0 "print maxmimum information";
    switch_entry "show-updates" (ch "u") 0 "display update information";
    switch_entry "username" svn_cl__auth_username_opt 1
      "specify a username [optional]";
    switch_entry "password" svn_cl__auth_password_opt 1
      "specify a password [optional]";
    switch_entry "extensions" (ch "x") 1
      "pass options through to GNU diff process";
    Apr.mk_option None 0 0 None ].

(** A [const apr_getopt_option_t *] computed by
    [svn_cl__get_option_from_enum]: null, the address of entry [i] of the
    option table, or an address past the table. *)
Inductive opt_ptr : Type :=
| Opt_null
| Opt_entry (i : nat)
| Opt_outside.

(** The line break. *)
Definition nl : string := String (ascii_of_nat 10) EmptyString.

(** The text a function writes to its stream, [None] when it does
    something C gives no meaning to (a null string printed with "%s", a
    null or stray pointer followed). *)
Definition text : Type := option string.

(** One piece of output, then another. *)
Definition and_then (a b : text) : text :=
  match a, b with
  | Some x, Some y => Some (x ++ y)
  | _, _ => None
  end.

(** Print an option nicely. *)
Definition print_option (opt : Apr.getopt_option_t) : text :=
  match Apr.name opt, Apr.description opt with
  | Some n, Some d =>
      Some ("  --" ++ n
            ++ (if Apr.optch opt <=? 255
                then " (-"
                     ++ String (ascii_of_N (Z.to_N (Apr.optch opt mod 256)))
                          EmptyString
                     ++ ")"
                else "")
            ++ ":  " ++ d ++ nl)
  | _, _ => None
  end.

(** The [for] loop of [svn_cl__get_option_from_enum], at index [i] with
    [rest] the entries from [i] on and [n] turns left. *)
Fixpoint option_scan (code : Z) (rest : list Apr.getopt_option_t)
  (i n : nat) : opt_ptr :=
  match n with
  | O => Opt_null
  | S n' =>
      match rest with
      | [] => Opt_outside
      | o :: rest' =>
          if Apr.optch o =? code then Opt_entry i
          else option_scan code rest' (S i) n'
      end
  end.

Definition svn_cl__get_option_from_enum (code : Z)
  (option_table : list Apr.getopt_option_t) : opt_ptr :=
  option_scan code option_table 0 SVN_CL__MAX_OPTS.

Section Help.

Variable table : list svn_cl__cmd_desc_t.
Variable option_table : list Apr.getopt_option_t.

(** The loop of [print_command_info] over the aliases that follow the
    canonical entry, with the closing parenthesis printed after it:
    [rest] are the entries from [this_cmd] on. *)
Fixpoint print_aliases (rest : list svn_cl__cmd_desc_t) (first_time : bool)
  : text :=
  match rest with
  | [] => None
  | d :: rest' =>
      match name d with
      | Some n =>
          if is_alias d then
            and_then (Some ((if first_time then " (" else ", ") ++ n))
              (print_aliases rest' false)
          else Some (if negb first_time then ")" else "")
      | None => Some (if negb first_time then ")" else "")
      end
  end.

(** The loop of [print_command_info] over the [SVN_CL__MAX_OPTS] slots of
    [valid_options]. *)
Fixpoint print_valid_options (codes : list Z) : text :=
  match codes with
  | [] => Some ""
  | code :: codes' =>
      and_then
        (if negb (code =? 0) then
           match svn_cl__get_option_from_enum code option_table with
           | Opt_entry i =>
               match nth_error option_table i with
               | Some option => print_option option
               | None => None
               end
           | Opt_null => Some ""
           | Opt_outside => None
           end
         else Some "")
        (print_valid_options codes')
  end.

(** Print the canonical command name for [cmd_desc], all its aliases, and
    if [help] is set, the help string for the command too. *)
Definition print_command_info (cmd_desc : svn_cl__cmd_desc_t) (help : bool)
  : text :=
  match svn_cl__get_canonical_command table (name cmd_desc) with
  | Entry c =>
      match nth_error table c with
      | Some canonical_cmd =>
          and_then (name canonical_cmd)
            (and_then (print_aliases (skipn (S c) table) true)
               (if help then
                  match help_text canonical_cmd with
                  | Some h =>
                      and_then (Some (": " ++ h ++ nl))
                        (and_then
                           (print_valid_options (valid_options canonical_cmd))
                           (Some nl))
                  | None => None
                  end
                else Some ""))
      | None => None
      end
  | _ => None
  end.

Definition usage : string :=
  "usage: svn <subcommand> [options] [args]" ++ nl
  ++ "Type " ++ quote ++ "svn help <subcommand>" ++ quote
  ++ " for help on a specific subcommand." ++ nl
  ++ nl
  ++ "Most subcommands take file and/or directory arguments, recursing" ++ nl
  ++ "on the directories.  If no arguments are supplied to such a" ++ nl
  ++ "command, it will recurse on the current directory (inclusive) by" ++ nl
  ++ "default." ++ nl
  ++ nl
  ++ "Available subcommands:" ++ nl.

Definition info : string :=
  "Subversion is a tool for revision control." ++ nl
  ++ "For additional information, see http://subversion.tigris.org" ++ nl.

(** The [while] loop of [svn_cl__print_generic_help], with [rest] the
    entries from [i] on. *)
Fixpoint print_commands (rest : list svn_cl__cmd_desc_t) : text :=
  match rest with
  | [] => None
  | d :: rest' =>
      match name d with
      | None => Some ""
      | Some _ =>
          and_then
            (if negb (is_alias d) then
               and_then (Some "   ")
                 (and_then (print_command_info d false) (Some nl))
             else Some "")
            (print_commands rest')
      end
  end.

(** Print a generic (non-command-specific) usage message. *)
Definition svn_cl__print_generic_help : text :=
  and_then (Some usage)
    (and_then (print_commands table) (Some (nl ++ info ++ nl))).

(** Print the usage text of a subcommand, given its name: the stream that
    is written to, and the text. *)
Definition svn_cl__subcommand_help (subcommand : string) : stream * text :=
  match svn_cl__get_canonical_command table (Some subcommand) with
  | Null =>
      (stderr,
       Some (quote ++ subcommand ++ quote ++ ": unknown command." ++ nl ++ nl))
  | Entry c =>
      match nth_error table c with
      | Some cmd => (stdout, print_command_info cmd true)
      | None => (stdout, None)
      end
  | Outside => (stdout, None)
  end.

End Help.

(** ** What the further properties are stated with *)

(** The aliases [print_aliases] names, in order. *)
Fixpoint listed_aliases (rest : list svn_cl__cmd_desc_t) : list string :=
  match rest with
  | [] => []
  | d :: rest' =>
      match name d with
      | Some n => if is_alias d then n :: listed_aliases rest' else []
      | None => []
      end
  end.

(** The names that follow the first one in the parentheses, each after a
    comma, and the closing parenthesis. *)
Fixpoint after_commas (names : list string) : string :=
  match names with
  | [] => ")"
  | n :: names' => ", " ++ n ++ after_commas names'
  end.

(** A list of names in parentheses, separated by commas; nothing for no
    name. *)
Definition in_parentheses (names : list string) : string :=
  match names with
  | [] => ""
  | n :: names' => " (" ++ n ++ after_commas names'
  end.

(** One line for each entry that is not an alias, with its name and, in
    parentheses, the aliases that follow it, up to the entry without a
    name. *)
Fixpoint command_lines (rest : list svn_cl__cmd_desc_t) : string :=
  match rest with
  | [] => ""
  | d :: rest' =>
      match name d with
      | None => ""
      | Some n =>
          (if is_alias d then ""
           else "   " ++ n ++ in_parentheses (listed_aliases rest') ++ nl)
          ++ command_lines rest'
      end
  end.

(** An option is one of the switches that ask for help. *)
Definition asks_for_help (o : Z * string) : bool :=
  ((fst o =? ch "h") || (fst o =? ch "?")) || (fst o =? svn_cl__version_opt).

(** An event is the usage message, printed by [svn_cl__help] called with
    no arguments. *)
Definition is_usage (e : event) : bool :=
  match e with
  | Usage => true
  | _ => false
  end.

(** Some option handed out has the code [c]. *)
Definition has_switch (c : Z) (answers : list (Z * string)) : bool :=
  existsb (fun o => fst o =? c) answers.

(** The argument of the last option with the code [c]. *)
Fixpoint last_arg (c : Z) (answers : list (Z * string)) : option string :=
  match answers with
  | [] => None
  | (id, arg) :: answers' =>
      match last_arg c answers' with
      | Some a => Some a
      | None => if id =? c then Some arg else None
      end
  end.

(** An option that ends the run when the loop comes to it: a revision
    argument that the grammar rejects, a date argument with a second ':',
    a file that cannot be read. *)
Definition fatal (svn_string_from_file : string -> svn_error_t + string)
  (o : Z * string) : bool :=
  ((fst o =? ch "r") && rejects (snd o))
  || ((fst o =? ch "D") && (2 <? length (fields (snd o)))%nat)
  || ((fst o =? ch "F")
      && match svn_string_from_file (snd o) with
         | inl _ => true
         | inr _ => false
         end).

Definition is_inl {A B : Type} (x : A + B) : bool :=
  match x with
  | inl _ => true
  | inr _ => false
  end.

(** ** Splitting at the separator *)

Lemma fields_not_nil (s : string) : fields s <> [].
Proof.
  destruct s as [|c s]; simpl; [discriminate|].
  destruct (Ascii.eqb c ":"); [discriminate|].
  destruct (fields s); discriminate.
Qed.

Lemma strchr_none_fields (s : string) :
  strchr s ":" = None -> fields s = [s].
Proof.
  induction s as [|c s IH]; simpl; intros H; [reflexivity|].
  destruct (Ascii.eqb c ":"); [discriminate|].
  destruct (strchr s ":"); [discriminate|].
  rewrite IH; reflexivity.
Qed.

Lemma strchr_some_fields (s : string) (k : nat) :
  strchr s ":" = Some k ->
  fields s = cut_at s k :: fields (ptr_add s (S k)).
Proof.
  revert k; induction s as [|c s IH]; simpl; intros k H; [discriminate|].
  destruct (Ascii.eqb c ":").
  - injection H as <-. reflexivity.
  - destruct (strchr s ":") as [j|]; [|discriminate].
    injection H as <-.
    rewrite (IH j eq_refl). reflexivity.
Qed.

(** [left_rev] and [right_rev] are the first and the last field when there
    are at most two fields, and the parser gives up when there are more. *)
Lemma split_arg_fields (arg : string) :
  split_arg arg =
  match fields arg with
  | [whole] => Some (whole, whole)
  | [l; r] => Some (l, r)
  | _ => None
  end.
Proof.
  unfold split_arg.
  destruct (strchr arg ":") as [sep|] eqn:Hsep.
  - rewrite (strchr_some_fields _ _ Hsep).
    destruct (strchr (ptr_add arg (S sep)) ":") as [k|] eqn:Hk.
    + rewrite (strchr_some_fields _ _ Hk).
      pose proof (fields_not_nil (ptr_add (ptr_add arg (S sep)) (S k))) as Hn.
      destruct (fields (ptr_add (ptr_add arg (S sep)) (S k)));
        [contradiction|reflexivity].
    + rewrite (strchr_none_fields _ Hk). reflexivity.
  - rewrite (strchr_none_fields _ Hsep). reflexivity.
Qed.

(** ** Validation of one half *)

Lemma not_a_digit_isdigit (c : ascii) : not_a_digit c = negb (isdigit c).
Proof.
  unfold not_a_digit, isdigit. rewrite Z.gtb_ltb.
  destruct (Z.ltb_spec (char_code c) (char_code "0"));
    destruct (Z.ltb_spec (char_code "9") (char_code c));
    destruct (Z.leb_spec (char_code "0") (char_code c));
    destruct (Z.leb_spec (char_code c) (char_code "9"));
    try reflexivity; lia.
Qed.

(** Past the first character the loop only asks for digits. *)
Lemma validate_revision_loop_tail (rev p : string) (i : nat) :
  i <> 0%nat ->
  validate_revision_loop rev i p = if all_digits p then 0 else 1.
Proof.
  revert i; induction p as [|c p IH]; simpl; intros i Hi; [reflexivity|].
  rewrite not_a_digit_isdigit.
  destruct (isdigit c); simpl.
  - apply IH. discriminate.
  - destruct i; [contradiction|reflexivity].
Qed.

Lemma lower_is_h (c : ascii) :
  Ascii.eqb (lower c) "h" = Ascii.eqb c "h" || Ascii.eqb c "H".
Proof.
  destruct c as [[] [] [] [] [] [] [] []]; reflexivity.
Qed.

Lemma lower_is_e (c : ascii) :
  Ascii.eqb (lower c) "e" = Ascii.eqb c "e" || Ascii.eqb c "E".
Proof.
  destruct c as [[] [] [] [] [] [] [] []]; reflexivity.
Qed.

Lemma lower_is_a (c : ascii) :
  Ascii.eqb (lower c) "a" = Ascii.eqb c "a" || Ascii.eqb c "A".
Proof.
  destruct c as [[] [] [] [] [] [] [] []]; reflexivity.
Qed.

Lemma lower_is_d (c : ascii) :
  Ascii.eqb (lower c) "d" = Ascii.eqb c "d" || Ascii.eqb c "D".
Proof.
  destruct c as [[] [] [] [] [] [] [] []]; reflexivity.
Qed.

Lemma isdigit_not_h (c : ascii) :
  isdigit c = true ->
  Ascii.eqb c "h" || Ascii.eqb c "H" || Ascii.eqb c zero = false.
Proof.
  destruct c as [[] [] [] [] [] [] [] []]; vm_compute; congruence.
Qed.

(** The length test and the character tests of the source accept exactly
    the case variations of "h" and "head". *)
Lemma validate_head_spec (rev : string) :
  (validate_head rev =? 0) = is_head_form rev.
Proof.
  unfold is_head_form.
  destruct rev as [|c0 [|c1 [|c2 [|c3 [|c4 rest]]]]].
  1-5: unfold validate_head, char_is, char_at; simpl;
    rewrite <- ?lower_is_h, <- ?lower_is_e, <- ?lower_is_a, <- ?lower_is_d;
    repeat match goal with
      | |- context [Ascii.eqb (lower ?a) ?b] =>
          destruct (Ascii.eqb (lower a) b)
      end; reflexivity.
  unfold validate_head, strlen.
  replace (Z.of_nat (String.length
             (String c0 (String c1 (String c2 (String c3 (String c4 rest)))))))
    with (5 + Z.of_nat (String.length rest)) by (simpl String.length; lia).
  destruct (Z.eqb_spec (5 + Z.of_nat (String.length rest)) 1); [lia|].
  destruct (Z.eqb_spec (5 + Z.of_nat (String.length rest)) 4); [lia|].
  simpl.
  repeat match goal with
    | |- context [Ascii.eqb (lower ?a) ?b] =>
        destruct (Ascii.eqb (lower a) b)
    end; reflexivity.
Qed.

Lemma digit_not_head_form (c : ascii) (p : string) :
  isdigit c = true -> is_head_form (String c p) = false.
Proof.
  intros H. apply isdigit_not_h in H.
  apply orb_false_iff in H as [H _].
  unfold is_head_form; simpl. rewrite lower_is_h, H. reflexivity.
Qed.

(** [validate_revision] returns 0 exactly on the halves the grammar
    allows. *)
Lemma validate_revision_spec (rev : string) :
  (validate_revision rev =? 0) = valid_half rev.
Proof.
  destruct rev as [|c p]; [reflexivity|].
  unfold validate_revision, valid_half; simpl.
  rewrite not_a_digit_isdigit.
  destruct (isdigit c) eqn:Hc; simpl.
  - rewrite validate_revision_loop_tail by discriminate.
    rewrite (digit_not_head_form c p Hc).
    destruct (all_digits p); reflexivity.
  - rewrite validate_head_spec.
    destruct (is_head_form (String c p)); reflexivity.
Qed.

(** ** Decoding of one half *)

Lemma digits_value_decimal (s : string) (acc : Z) :
  all_digits s = true ->
  digits_value s acc = acc * 10 ^ Z.of_nat (String.length s) + decimal s.
Proof.
  revert acc; induction s as [|c s IH]; intros acc H;
    cbn [digits_value decimal String.length all_digits] in *.
  - change (10 ^ Z.of_nat 0) with 1. lia.
  - apply andb_true_iff in H as [Hc Hs].
    rewrite Hc, (IH _ Hs).
    rewrite Nat2Z.inj_succ, Z.pow_succ_r by lia.
    ring.
Qed.

Lemma atoi_digit_first (c : ascii) (p : string) :
  isdigit c = true ->
  atoi (String c p) = to_int (strtol_value (digits_value (String c p) 0)).
Proof.
  intros H. unfold atoi.
  destruct c as [[] [] [] [] [] [] [] []];
    vm_compute in H; try discriminate H; reflexivity.
Qed.

Lemma decimal_not_negative (s : string) :
  all_digits s = true -> 0 <= decimal s.
Proof.
  induction s as [|c s IH]; simpl; intros H; [lia|].
  apply andb_true_iff in H as [Hc Hs]. specialize (IH Hs).
  unfold isdigit in Hc. apply andb_true_iff in Hc as [Hc _].
  apply Z.leb_le in Hc.
  assert (0 <= 10 ^ Z.of_nat (String.length s)) by (apply Z.pow_nonneg; lia).
  nia.
Qed.

(** A value within the range of [int] comes out of [atoi] as it is. *)
Lemma to_int_in_range (v : Z) :
  0 <= v <= INT_MAX -> to_int (strtol_value v) = v.
Proof.
  unfold to_int, strtol_value, INT_MAX, LONG_MIN, LONG_MAX. intros H.
  rewrite Z.min_r by lia. rewrite Z.max_r by lia.
  rewrite Z.mod_small by lia. lia.
Qed.

Lemma stored_revision_decode (s : string) :
  valid_half s = true -> fits_int s = true ->
  stored_revision s = decode s.
Proof.
  unfold valid_half, fits_int, stored_revision, decode.
  destruct (String.eqb s "" || is_head_form s) eqn:He; [reflexivity|].
  apply orb_false_iff in He as [He Hh]. rewrite He, Hh, !orb_false_r.
  intros Hd Hfit. rewrite Hd in Hfit. simpl in Hfit.
  apply Z.leb_le in Hfit.
  apply to_int_in_range. split; [apply decimal_not_negative; exact Hd|exact Hfit].
Qed.

Lemma head_form_first (c : ascii) (p : string) :
  is_head_form (String c p) = true ->
  Ascii.eqb c "h" || Ascii.eqb c "H" = true.
Proof.
  unfold is_head_form; simpl. rewrite lower_is_h.
  destruct (Ascii.eqb c "h" || Ascii.eqb c "H"); [reflexivity|].
  simpl. discriminate.
Qed.

(** On a half that passed validation the conditional of [parse_revision]
    computes the sentinel, or the [int] of the digits. *)
Lemma revision_of_spec (rev : string) :
  valid_half rev = true -> revision_of rev = stored_revision rev.
Proof.
  destruct rev as [|c p]; [reflexivity|].
  unfold valid_half, revision_of, stored_revision, char_is, char_at.
  simpl String.get. simpl (String.eqb (String c p) "").
  rewrite orb_false_r, orb_false_l.
  destruct (is_head_form (String c p)) eqn:Hh.
  - intros _. rewrite (head_form_first _ _ Hh). reflexivity.
  - rewrite orb_false_r. intros Hd.
    assert (Hc : isdigit c = true)
      by (simpl in Hd; apply andb_true_iff in Hd; tauto).
    rewrite (isdigit_not_h c Hc).
    rewrite (atoi_digit_first c p Hc).
    rewrite (digits_value_decimal _ 0 Hd). reflexivity.
Qed.

(** ** The revision parser against the grammar *)

(** What [parse_revision] returns, for every argument. *)
Lemma parse_revision_stored (os : svn_cl__opt_state_t) (arg : string) :
  parse_revision os arg =
  match stored_range arg with
  | Some (a, b) =>
      (SVN_NO_ERROR, set_end_revision b (set_start_revision a os))
  | None => (1, os)
  end.
Proof.
  unfold parse_revision, stored_range, rejects.
  rewrite split_arg_fields.
  pose proof (fields_not_nil arg) as Hn.
  destruct (fields arg) as [|l [|r [|x rest]]]; [contradiction| | |reflexivity].
  - rewrite !validate_revision_spec. simpl.
    destruct (valid_half l) eqn:Hl; simpl; [|reflexivity].
    rewrite (revision_of_spec l Hl). reflexivity.
  - rewrite !validate_revision_spec. simpl.
    destruct (valid_half l) eqn:Hl; simpl; [|reflexivity].
    destruct (valid_half r) eqn:Hr; simpl; [|reflexivity].
    rewrite (revision_of_spec l Hl), (revision_of_spec r Hr). reflexivity.
Qed.

(** Within the native integer range the revisions stored are those of
    the grammar. *)
Lemma stored_range_grammar (arg : string) :
  within_int_range arg = true -> stored_range arg = RevisionRangeParser arg.
Proof.
  unfold stored_range, RevisionRangeParser, rejects, within_int_range.
  intros Hfit.
  destruct ((2 <? length (fields arg))%nat); [reflexivity|].
  destruct (forallb valid_half (fields arg)) eqn:Hv; [|reflexivity].
  simpl. rewrite forallb_forall in Hv, Hfit.
  pose proof (fields_not_nil arg) as Hn.
  assert (Hhd : In (hd EmptyString (fields arg)) (fields arg))
    by (destruct (fields arg); [contradiction|left; reflexivity]).
  assert (Hlast : In (last (fields arg) EmptyString) (fields arg)).
  { destruct (exists_last Hn) as (l' & a & Heq).
    rewrite Heq, last_last. apply in_or_app. right. left. reflexivity. }
  rewrite (stored_revision_decode _ (Hv _ Hhd) (Hfit _ Hhd)).
  rewrite (stored_revision_decode _ (Hv _ Hlast) (Hfit _ Hlast)).
  reflexivity.
Qed.

Lemma parse_revision_spec (os : svn_cl__opt_state_t) (arg : string) :
  within_int_range arg = true ->
  parse_revision os arg =
  match RevisionRangeParser arg with
  | Some (a, b) =>
      (SVN_NO_ERROR, set_end_revision b (set_start_revision a os))
  | None => (1, os)
  end.
Proof.
  intros H. rewrite parse_revision_stored, (stored_range_grammar arg H).
  reflexivity.
Qed.

Lemma parse_revision_status (os : svn_cl__opt_state_t) (arg : string) :
  fst (parse_revision os arg) = if rejects arg then 1 else 0.
Proof.
  rewrite parse_revision_stored. unfold stored_range.
  destruct (rejects arg); reflexivity.
Qed.

(** C1.  The revision-range parser decodes its argument as the table of
    the specification says: "5" gives (5, 5), "5:10" gives (5, 10),
    "5:head" gives (5, latest), "head:5" gives (latest, 5), each of "HEAD",
    "head" and "H" gives (latest, latest), and "abc", "5:6:7" and "heads"
    are syntax errors.  For every argument whose digit strings are within
    the native integer range the parser agrees with the grammar: head forms
    are the case variations of "h" and "head", an empty half or a head form
    is the latest sentinel, and a digit string is its integer value. *)
Theorem revision_range_table :
  forall os : svn_cl__opt_state_t,
    let range a b :=
      (SVN_NO_ERROR, set_end_revision b (set_start_revision a os)) in
    let latest := SVN_INVALID_REVNUM in
    parse_revision os "5" = range 5 5 /\
    parse_revision os "5:10" = range 5 10 /\
    parse_revision os "5:head" = range 5 latest /\
    parse_revision os "head:5" = range latest 5 /\
    parse_revision os "HEAD" = range latest latest /\
    parse_revision os "head" = range latest latest /\
    parse_revision os "H" = range latest latest /\
    parse_revision os "abc" = (1, os) /\
    parse_revision os "5:6:7" = (1, os) /\
    parse_revision os "heads" = (1, os) /\
    (forall arg : string,
        within_int_range arg = true ->
        parse_revision os arg =
        match RevisionRangeParser arg with
        | Some (a, b) => range a b
        | None => (1, os)
        end).
Proof.
  intros os range latest.
  do 10 (split; [reflexivity|]).
  intros arg Hfit. apply parse_revision_spec. exact Hfit.
Qed.

Lemma revision_range_table_witness :
  parse_revision initial_opt_state "2147483647:head"
  = (SVN_NO_ERROR,
     set_end_revision SVN_INVALID_REVNUM
       (set_start_revision 2147483647 initial_opt_state)).
Proof.
  apply (revision_range_table initial_opt_state). reflexivity.
Defined.

(** C4.  An argument is rejected by the revision-range parser exactly when
    it has a second colon or a half that is neither all digits, nor a head
    form, nor empty; the parser then returns the syntax error 1 and the
    option state, its start and end revision included, is the one it was
    given. *)
Theorem rejected_revision_leaves_state :
  forall (os : svn_cl__opt_state_t) (arg : string),
    fst (parse_revision os arg) <> 0 \/ rejects arg = true ->
    fst (parse_revision os arg) <> 0 /\
    rejects arg = true /\
    parse_revision os arg = (1, os) /\
    start_revision (snd (parse_revision os arg)) = start_revision os /\
    end_revision (snd (parse_revision os arg)) = end_revision os.
Proof.
  intros os arg H.
  rewrite parse_revision_status in *.
  rewrite parse_revision_stored. unfold stored_range.
  destruct (rejects arg).
  - repeat split. discriminate.
  - destruct H as [H|H]; [contradiction|discriminate].
Qed.

Lemma rejected_revision_leaves_state_witness :
  parse_revision initial_opt_state "5:6:7" = (1, initial_opt_state).
Proof.
  apply (rejected_revision_leaves_state initial_opt_state "5:6:7").
  right. reflexivity.
Defined.

(** ** The date parser *)

Lemma c_string_empty (s : string) :
  is_c_string s = true -> char_is s 0 zero = String.eqb s "".
Proof.
  destruct s as [|c s]; [reflexivity|].
  unfold char_is, char_at; simpl.
  destruct (Ascii.eqb c zero); [discriminate|reflexivity].
Qed.

Lemma c_string_fields (s : string) :
  is_c_string s = true -> forallb is_c_string (fields s) = true.
Proof.
  induction s as [|c s IH]; simpl; intros H; [reflexivity|].
  apply andb_true_iff in H as [Hc Hs].
  specialize (IH Hs).
  destruct (Ascii.eqb c ":"); simpl; [exact IH|].
  pose proof (fields_not_nil s) as Hn.
  destruct (fields s) as [|f fs]; [contradiction|].
  simpl in *. rewrite Hc. exact IH.
Qed.

Section Date_ranges.

Variable svn_parse_date : string -> Z.
Variable apr_ansi_time_to_apr_time : Z -> Z.

Local Abbreviation date_of text :=
  (apr_ansi_time_to_apr_time (svn_parse_date text)).

Local Abbreviation parse :=
  (parse_date svn_parse_date apr_ansi_time_to_apr_time).

(** What [parse_date] does, by the number of fields of its argument. *)
Lemma parse_date_fields (os : svn_cl__opt_state_t) (arg : string) :
  parse os arg =
  match fields arg with
  | [whole] =>
      (SVN_NO_ERROR,
       set_end_date (date_of whole) (set_start_date (date_of whole) os))
  | [l; r] =>
      let os := if char_is l 0 zero then os
                else set_start_date (date_of l) os in
      let os := if char_is r 0 zero then os
                else set_end_date (date_of r) os in
      (SVN_NO_ERROR, os)
  | _ => (1, os)
  end.
Proof.
  unfold parse_date.
  destruct (strchr arg ":") as [sep|] eqn:Hsep.
  - rewrite (strchr_some_fields _ _ Hsep).
    destruct (strchr (ptr_add arg (S sep)) ":") as [k|] eqn:Hk.
    + rewrite (strchr_some_fields _ _ Hk).
      pose proof (fields_not_nil (ptr_add (ptr_add arg (S sep)) (S k))) as Hn.
      destruct (fields (ptr_add (ptr_add arg (S sep)) (S k)));
        [contradiction|reflexivity].
    + rewrite (strchr_none_fields _ Hk). cbv zeta.
      destruct (char_is (cut_at arg sep) 0 zero);
        destruct (char_is (ptr_add arg (S sep)) 0 zero); reflexivity.
  - rewrite (strchr_none_fields _ Hsep).
    destruct os; reflexivity.
Qed.

(** C2.  For every argument of the date switch: without a ':' the one
    parsed date is stored as start and as end date; with one ':' each
    non-empty half is parsed and stored in its own field only, and an
    empty half leaves its field as it was before the call; with a second
    ':' the parser returns the syntax error 1 and the state is the one it
    was given. *)
Theorem date_range_assignment :
  forall (os : svn_cl__opt_state_t) (arg : string),
    is_c_string arg = true ->
    let ret := fst (parse os arg) in
    let os' := snd (parse os arg) in
    match fields arg with
    | [whole] =>
        ret = SVN_NO_ERROR /\
        start_date os' = date_of whole /\
        end_date os' = date_of whole /\
        os' = set_end_date (date_of whole)
                (set_start_date (date_of whole) os)
    | [l; r] =>
        ret = SVN_NO_ERROR /\
        start_date os' =
          (if String.eqb l "" then start_date os else date_of l) /\
        end_date os' =
          (if String.eqb r "" then end_date os else date_of r) /\
        os' = (if String.eqb r "" then fun o => o
               else set_end_date (date_of r))
                ((if String.eqb l "" then fun o => o
                  else set_start_date (date_of l)) os)
    | _ =>
        ret <> 0 /\ os' = os /\
        start_date os' = start_date os /\ end_date os' = end_date os
    end.
Proof.
  intros os arg Hc ret os'. subst ret os'.
  rewrite parse_date_fields.
  apply c_string_fields in Hc.
  destruct (fields arg) as [|l [|r [|x rest]]].
  - repeat split. discriminate.
  - destruct os; repeat split.
  - simpl in Hc.
    apply andb_true_iff in Hc as [Hl Hr].
    apply andb_true_iff in Hr as [Hr _].
    rewrite (c_string_empty l Hl), (c_string_empty r Hr).
    destruct os; destruct (String.eqb l ""), (String.eqb r "");
      repeat split.
  - repeat split. discriminate.
Qed.

End Date_ranges.

Lemma date_range_assignment_witness :
  let os' := snd (Sample.parse_date initial_opt_state "2020-01-01:") in
  start_date os' = 1577836800000000 /\ end_date os' = 0.
Proof.
  pose proof (date_range_assignment Sample.svn_parse_date
                Sample.apr_ansi_time_to_apr_time initial_opt_state
                "2020-01-01:" eq_refl) as H.
  simpl fields in H. cbv zeta in H.
  destruct H as (_ & Hs & He & _).
  split; [exact Hs|exact He].
Defined.

(** C3.  A date text that the date reader rejects is not reported by the
    date-range parser: [svn_parse_date] answers -1 for "rubbish", yet
    [parse_date] returns 0, stores the converted -1 as start and end date,
    and [main] goes on to call the command and exits with success. *)
Theorem unreadable_date_is_accepted :
  Sample.svn_parse_date "rubbish" = -1 /\
  (forall os : svn_cl__opt_state_t,
      Sample.parse_date os "rubbish" =
      (SVN_NO_ERROR,
       set_end_date (-1000000) (set_start_date (-1000000) os))) /\
  Sample.main (mk_command_line 4 [(ch "D", "rubbish")] true ["log"]) =
  mk_outcome (Exit EXIT_SUCCESS)
    [Feedback_init;
     Call svn_cl__log []
       (set_end_date (-1000000)
          (set_start_date (-1000000) initial_opt_state))].
Proof.
  repeat split.
  intros os. destruct os; reflexivity.
Qed.

(** ** Lookup in the command table *)

Lemma compare_same (a : string) : String.compare a a = Eq.
Proof.
  pose proof (String.compare_antisym a a) as H.
  destruct (String.compare a a); [reflexivity|discriminate H..].
Qed.

Lemma strcmp_eq (a b : string) : (strcmp a b =? 0) = true <-> a = b.
Proof.
  unfold strcmp. split.
  - intros H. apply String.compare_eq_iff.
    destruct (String.compare a b); [reflexivity|discriminate H..].
  - intros <-. rewrite compare_same. reflexivity.
Qed.

Lemma below_forallb (P : nat -> bool) (n : nat) :
  forallb P (seq 0 n) = true -> forall i, (i < n)%nat -> P i = true.
Proof.
  intros H i Hi. rewrite forallb_forall in H.
  apply H, in_seq. lia.
Qed.

Section Scan.

Variable cmd_name : string.

(** A hit is the first entry with that name, and every entry before it
    has another name. *)
Lemma table_scan_entry (rest : list svn_cl__cmd_desc_t) (i k : nat) :
  table_scan cmd_name rest i = Entry k ->
  (i <= k)%nat /\
  (exists d, nth_error rest (k - i) = Some d /\ name d = Some cmd_name) /\
  (forall j d, (j < k - i)%nat -> nth_error rest j = Some d ->
               name d <> Some cmd_name /\ name d <> None).
Proof.
  revert i; induction rest as [|d rest IH]; simpl; intros i H;
    [discriminate|].
  destruct (name d) as [n|] eqn:Hn; [|discriminate].
  destruct (strcmp cmd_name n =? 0) eqn:Hcmp.
  - injection H as <-. apply strcmp_eq in Hcmp as <-.
    rewrite Nat.sub_diag. split; [lia|]. split.
    + exists d. split; [reflexivity|exact Hn].
    + intros j d' Hj. lia.
  - destruct (IH _ H) as (Hle & (d' & Hd' & Hname) & Hbefore).
    split; [lia|]. split.
    + exists d'. replace (k - i)%nat with (S (k - S i)) by lia.
      split; [exact Hd'|exact Hname].
    + intros j e Hj He. destruct j as [|j]; simpl in He.
      * injection He as <-. rewrite Hn. split; [|discriminate].
        intros Heq. injection Heq as ->.
        assert ((strcmp cmd_name cmd_name =? 0) = true)
          by (apply strcmp_eq; reflexivity).
        congruence.
      * apply (Hbefore j e); [lia|exact He].
Qed.

(** A named entry that only named entries precede is found, or an
    earlier one with the same name is. *)
Lemma table_scan_finds (rest : list svn_cl__cmd_desc_t) (i m : nat)
  (d : svn_cl__cmd_desc_t) :
  nth_error rest m = Some d -> name d = Some cmd_name ->
  (forall j e, (j < m)%nat -> nth_error rest j = Some e -> name e <> None) ->
  exists k, table_scan cmd_name rest i = Entry k.
Proof.
  revert i m; induction rest as [|e rest IH]; intros i m Hm Hd Hnamed.
  - destruct m; discriminate.
  - simpl. destruct m as [|m]; simpl in Hm.
    + injection Hm as ->. rewrite Hd.
      assert ((strcmp cmd_name cmd_name =? 0) = true) as ->
          by (apply strcmp_eq; reflexivity).
      eauto.
    + destruct (name e) as [n|] eqn:Hn.
      * destruct (strcmp cmd_name n =? 0); [eauto|].
        apply (IH (S i) m Hm Hd).
        intros j e' Hj He'. apply (Hnamed (S j) e'); [lia|exact He'].
      * exfalso. apply (Hnamed 0%nat e); [lia|reflexivity|exact Hn].
Qed.

(** When no entry has the name, the scan ends at the null entry. *)
Lemma table_scan_misses (rest : list svn_cl__cmd_desc_t) (i : nat) :
  (forall d, In d rest -> name d <> Some cmd_name) ->
  (exists d, In d rest /\ name d = None) ->
  table_scan cmd_name rest i = Null.
Proof.
  revert i; induction rest as [|e rest IH]; intros i Hno [d [Hin Hd]].
  - destruct Hin.
  - simpl. destruct (name e) as [n|] eqn:Hn; [|reflexivity].
    destruct (strcmp cmd_name n =? 0) eqn:Hcmp.
    + apply strcmp_eq in Hcmp as ->.
      exfalso. apply (Hno e); [left; reflexivity|exact Hn].
    + apply IH.
      * intros d' Hd'. apply Hno. right. exact Hd'.
      * destruct Hin as [->|Hin]; [congruence|eauto].
Qed.

End Scan.

(** The declared table has 48 named entries, then the null entry. *)
Lemma declared_table_named (i : nat) (d : svn_cl__cmd_desc_t) :
  nth_error svn_cl__cmd_table i = Some d ->
  (name d = None <-> i = 48%nat).
Proof.
  intros Hd.
  assert (Hlen : (i < 49)%nat)
    by (change 49%nat with (length svn_cl__cmd_table);
        apply nth_error_Some; congruence).
  destruct (Nat.eq_dec i 48) as [->|Hne].
  - vm_compute in Hd. injection Hd as <-. split; reflexivity.
  - assert (Hn : Checks.named i = true)
      by (apply (below_forallb Checks.named 48); [vm_compute; reflexivity|lia]).
    unfold Checks.named in Hn. rewrite Hd in Hn.
    destruct (name d); [|discriminate].
    split; [discriminate|contradiction].
Qed.

(** C7.  [get_cmd_table_entry] returns the null pointer for a null name,
    whatever the table is, and for every string that is the name of no
    entry; for every string that is the name of an entry it returns the
    first entry of the table whose name equals the string. *)
Theorem lookup_first_match :
  (forall table : list svn_cl__cmd_desc_t,
      get_cmd_table_entry table None = Null) /\
  (forall cmd_name : string,
      (forall d, In d svn_cl__cmd_table -> name d <> Some cmd_name) ->
      get_cmd_table_entry svn_cl__cmd_table (Some cmd_name) = Null) /\
  (forall cmd_name : string,
      (exists d, In d svn_cl__cmd_table /\ name d = Some cmd_name) ->
      exists i d,
        get_cmd_table_entry svn_cl__cmd_table (Some cmd_name) = Entry i /\
        nth_error svn_cl__cmd_table i = Some d /\
        name d = Some cmd_name /\
        forall j e, (j < i)%nat -> nth_error svn_cl__cmd_table j = Some e ->
                    name e <> Some cmd_name).
Proof.
  split; [reflexivity|]. split.
  - intros cmd_name Hno. unfold get_cmd_table_entry.
    apply table_scan_misses; [exact Hno|].
    exists (mk_cmd_desc None false None None (opts [0])).
    split; [|reflexivity].
    apply (nth_error_In svn_cl__cmd_table 48). reflexivity.
  - intros cmd_name [d [Hin Hd]].
    apply In_nth_error in Hin as [m Hm].
    destruct (table_scan_finds cmd_name svn_cl__cmd_table 0 m d Hm Hd)
      as [k Hk].
    + intros j e Hj He Hnone.
      apply (declared_table_named j e He) in Hnone. subst j.
      assert (m <> 48%nat).
      { intros ->.
        pose proof (proj2 (declared_table_named 48 d Hm) eq_refl).
        congruence. }
      assert ((m < 49)%nat)
        by (change 49%nat with (length svn_cl__cmd_table);
            apply nth_error_Some; congruence).
      lia.
    + destruct (table_scan_entry _ _ _ _ Hk) as (_ & (e & He & Hname) & Hbefore).
      rewrite Nat.sub_0_r in *.
      exists k, e. repeat split; try assumption.
      intros j e' Hj He'. apply (Hbefore j e' Hj He').
Qed.

Lemma lookup_first_match_witness :
  exists i d,
    get_cmd_table_entry svn_cl__cmd_table (Some "rm") = Entry i /\
    nth_error svn_cl__cmd_table i = Some d /\
    name d = Some "rm" /\
    forall j e, (j < i)%nat -> nth_error svn_cl__cmd_table j = Some e ->
                name e <> Some "rm".
Proof.
  apply (proj2 (proj2 lookup_first_match) "rm").
  exists (alias "rm"). split; [|reflexivity].
  apply (nth_error_In svn_cl__cmd_table 13). reflexivity.
Defined.

(** ** The walk back to the canonical entry *)

Lemma canonical_walk_eq (table : list svn_cl__cmd_desc_t) (i : nat) :
  canonical_walk table i =
  match nth_error table i with
  | None => Outside
  | Some d =>
      if is_alias d then
        match i with
        | O => Outside
        | S j => canonical_walk table j
        end
      else Entry i
  end.
Proof. destruct i; reflexivity. Qed.

(** In any table whose first entry is not an alias, the walk from an entry
    stops inside the table, at the nearest entry before it that is not an
    alias. *)
Lemma canonical_walk_spec (table : list svn_cl__cmd_desc_t) :
  (exists d0, nth_error table 0 = Some d0 /\ is_alias d0 = false) ->
  forall i e,
    nth_error table i = Some e ->
    exists c d,
      canonical_walk table i = Entry c /\
      (c <= i)%nat /\
      nth_error table c = Some d /\ is_alias d = false /\
      (is_alias e = true -> (c < i)%nat) /\
      (forall j e', (c < j <= i)%nat -> nth_error table j = Some e' ->
                    is_alias e' = true).
Proof.
  intros [d0 [Hd0 Hfirst]].
  induction i as [|i IH]; intros e He; rewrite canonical_walk_eq, He.
  - assert (e = d0) as -> by congruence. rewrite Hfirst.
    exists 0%nat, d0. repeat split; try assumption; try lia; congruence.
  - destruct (is_alias e) eqn:Halias.
    + destruct (nth_error table i) as [e0|] eqn:He0.
      * destruct (IH e0 eq_refl) as (c & d & Hw & Hle & Hd & Hna & _ & Hbetween).
        exists c, d. repeat split; try assumption; try lia.
        intros j e' Hj He'.
        destruct (Nat.eq_dec j (S i)) as [->|Hne].
        -- congruence.
        -- apply (Hbetween j e'); [lia|exact He'].
      * exfalso.
        assert ((S i < length table)%nat) by (apply nth_error_Some; congruence).
        apply nth_error_None in He0. lia.
    + exists (S i), e. repeat split; try assumption; try lia; discriminate.
Qed.

Lemma found_entry (cmd_name : string) (i : nat) :
  get_cmd_table_entry svn_cl__cmd_table (Some cmd_name) = Entry i ->
  (i < 48)%nat /\
  exists e, nth_error svn_cl__cmd_table i = Some e /\ name e = Some cmd_name.
Proof.
  intros H. apply table_scan_entry in H as (_ & (e & He & Hname) & _).
  rewrite Nat.sub_0_r in He.
  assert ((i < 49)%nat)
    by (change 49%nat with (length svn_cl__cmd_table);
        apply nth_error_Some; congruence).
  assert (i <> 48%nat).
  { intros ->.
    pose proof (proj2 (declared_table_named 48 e He) eq_refl). congruence. }
  split; [lia|eauto].
Qed.

(** C10.  In the table as declared the first entry is not an alias; from
    every entry the backward walk of the canonicalization ends at an entry
    of the table that is not an alias, never before the first entry, and
    all the entries it steps over are aliases, so that every alias is
    preceded, through aliases only, by its canonical entry.  For every
    name found in the table [svn_cl__get_canonical_command] returns that
    entry. *)
Theorem canonical_walk_stays_in_table :
  (exists d0, nth_error svn_cl__cmd_table 0 = Some d0 /\ is_alias d0 = false) /\
  (forall i e,
      nth_error svn_cl__cmd_table i = Some e ->
      exists c d,
        canonical_walk svn_cl__cmd_table i = Entry c /\
        (c <= i)%nat /\
        nth_error svn_cl__cmd_table c = Some d /\ is_alias d = false /\
        (is_alias e = true -> (c < i)%nat) /\
        (forall j e', (c < j <= i)%nat ->
                      nth_error svn_cl__cmd_table j = Some e' ->
                      is_alias e' = true)) /\
  (forall cmd_name i,
      get_cmd_table_entry svn_cl__cmd_table (Some cmd_name) = Entry i ->
      exists c d,
        svn_cl__get_canonical_command svn_cl__cmd_table (Some cmd_name)
        = Entry c /\
        canonical_walk svn_cl__cmd_table i = Entry c /\
        (c <= i)%nat /\
        nth_error svn_cl__cmd_table c = Some d /\ is_alias d = false).
Proof.
  assert (Hfirst : exists d0, nth_error svn_cl__cmd_table 0 = Some d0
                              /\ is_alias d0 = false)
    by (eexists; split; reflexivity).
  split; [exact Hfirst|]. split.
  - apply canonical_walk_spec. exact Hfirst.
  - intros cmd_name i Hfound.
    destruct (found_entry _ _ Hfound) as (_ & e & He & _).
    destruct (canonical_walk_spec _ Hfirst i e He)
      as (c & d & Hw & Hle & Hd & Hna & _).
    exists c, d. unfold svn_cl__get_canonical_command.
    rewrite Hfound. repeat split; assumption.
Qed.

Lemma canonical_walk_stays_in_table_witness :
  exists c d,
    svn_cl__get_canonical_command svn_cl__cmd_table (Some "ren") = Entry c /\
    canonical_walk svn_cl__cmd_table 25 = Entry c /\
    (c <= 25)%nat /\
    nth_error svn_cl__cmd_table c = Some d /\ is_alias d = false.
Proof.
  apply (proj2 (proj2 canonical_walk_stays_in_table) "ren" 25%nat).
  reflexivity.
Defined.

(** The canonical entry of a name that is found, with what the checks of
    the declared table say about it. *)
Lemma found_canonical (cmd_name : string) (i : nat) :
  get_cmd_table_entry svn_cl__cmd_table (Some cmd_name) = Entry i ->
  exists c d e f,
    nth_error svn_cl__cmd_table i = Some e /\
    svn_cl__get_canonical_command svn_cl__cmd_table (Some cmd_name)
    = Entry c /\
    nth_error svn_cl__cmd_table c = Some d /\
    is_alias d = false /\
    cmd_func d = Some f /\
    canonical_walk svn_cl__cmd_table c = Entry c /\
    svn_cl__get_canonical_command svn_cl__cmd_table (name d) = Entry c /\
    (is_alias e = true -> name d <> Some cmd_name).
Proof.
  intros Hfound.
  destruct (found_entry _ _ Hfound) as (Hi & e & He & Hname).
  assert (Hok : Checks.canonical_ok i = true)
    by (apply (below_forallb Checks.canonical_ok 48);
        [vm_compute; reflexivity|exact Hi]).
  unfold Checks.canonical_ok in Hok. rewrite He, Hname in Hok.
  destruct (svn_cl__get_canonical_command svn_cl__cmd_table (Some cmd_name))
    as [|c|] eqn:Hc; try discriminate.
  destruct (nth_error svn_cl__cmd_table c) as [d|] eqn:Hd; [|discriminate].
  apply andb_true_iff in Hok as [Hok Hdiff].
  apply andb_true_iff in Hok as [Hok Hagain].
  apply andb_true_iff in Hok as [Hna Hf].
  apply negb_true_iff in Hna.
  destruct (cmd_func d) as [f|] eqn:Hfunc; [|discriminate].
  assert (Hsame : svn_cl__get_canonical_command svn_cl__cmd_table (name d)
                  = Entry c).
  { destruct (svn_cl__get_canonical_command svn_cl__cmd_table (name d));
      try discriminate.
    simpl in Hagain. apply Nat.eqb_eq in Hagain. congruence. }
  exists c, d, e, f. repeat split; try assumption.
  - rewrite canonical_walk_eq, Hd, Hna. reflexivity.
  - intros Halias Heq. rewrite Halias, Heq in Hdiff. simpl in Hdiff.
    rewrite String.eqb_refl in Hdiff. discriminate.
Qed.

(** C6.  For every name found in the table, canonical or alias, the
    canonical entry is not an alias, canonicalizing it again gives the
    same entry, by its address and by its name, and when the name found is
    that of an alias the canonical entry has another name. *)
Theorem canonicalization_idempotent :
  forall (cmd_name : string) (i : nat),
    get_cmd_table_entry svn_cl__cmd_table (Some cmd_name) = Entry i ->
    exists c d e,
      nth_error svn_cl__cmd_table i = Some e /\
      svn_cl__get_canonical_command svn_cl__cmd_table (Some cmd_name)
      = Entry c /\
      nth_error svn_cl__cmd_table c = Some d /\
      is_alias d = false /\
      canonical_walk svn_cl__cmd_table c = Entry c /\
      svn_cl__get_canonical_command svn_cl__cmd_table (name d) = Entry c /\
      (is_alias e = true -> name d <> Some cmd_name).
Proof.
  intros cmd_name i Hfound.
  destruct (found_canonical _ _ Hfound)
    as (c & d & e & f & He & Hc & Hd & Hna & _ & Hw & Hagain & Hdiff).
  exists c, d, e. repeat split; assumption.
Qed.

Lemma canonicalization_idempotent_witness :
  exists c d e,
    nth_error svn_cl__cmd_table 7 = Some e /\
    svn_cl__get_canonical_command svn_cl__cmd_table (Some "ci") = Entry c /\
    nth_error svn_cl__cmd_table c = Some d /\
    is_alias d = false /\
    canonical_walk svn_cl__cmd_table c = Entry c /\
    svn_cl__get_canonical_command svn_cl__cmd_table (name d) = Entry c /\
    (is_alias e = true -> name d <> Some "ci").
Proof.
  apply (canonicalization_idempotent "ci" 7%nat). reflexivity.
Defined.

(** ** One turn of the option loop *)

Lemma calls_app (out more : list event) :
  calls (out ++ more) = (calls out ++ calls more)%list.
Proof. apply filter_app. Qed.

Lemma calls_report (out : list event) (e : event) :
  is_call e = false -> calls (out ++ [e]) = calls out.
Proof.
  intros H. rewrite calls_app. unfold calls at 2. simpl. rewrite H.
  apply app_nil_r.
Qed.

(** The cases of the [switch], in the order of the source. *)
Ltac opt_cases id :=
  destruct (id =? ch "m") eqn:?; [|
  destruct (id =? ch "r") eqn:?; [|
  destruct (id =? ch "D") eqn:?; [|
  destruct (id =? ch "v") eqn:?; [|
  destruct (id =? ch "V") eqn:?; [|
  destruct (id =? ch "u") eqn:?; [|
  destruct ((id =? ch "h") || (id =? ch "?")) eqn:?; [|
  destruct (id =? ch "q") eqn:?; [|
  destruct (id =? svn_cl__xml_file_opt) eqn:?; [|
  destruct (id =? ch "d") eqn:?; [|
  destruct (id =? ch "F") eqn:?; [|
  destruct (id =? ch "M") eqn:?; [|
  destruct (id =? svn_cl__force_opt) eqn:?; [|
  destruct (id =? svn_cl__recursive_opt) eqn:?; [|
  destruct (id =? ch "n") eqn:?; [|
  destruct (id =? svn_cl__version_opt) eqn:?; [|
  destruct (id =? svn_cl__auth_username_opt) eqn:?; [|
  destruct (id =? svn_cl__auth_password_opt) eqn:?; [|
  destruct (id =? svn_cl__locale_opt) eqn:?; [|
  destruct (id =? ch "x") eqn:? ]]]]]]]]]]]]]]]]]]].

(** The flags of a state that has been taken apart are compared by
    computation. *)
Ltac by_fields :=
  cbn; rewrite ?orb_false_r, ?orb_true_r;
  repeat split; solve [reflexivity | discriminate].

(** Two states, or two outputs, that differ by diagnostics only. *)
Ltac same_core :=
  cbn [negb opt_state log_under_version_control printed trace result];
  rewrite ?calls_report by reflexivity;
  rewrite ?calls_app; congruence.

(** The code of the case at hand, once the test that selects it holds. *)
Ltac known_code id :=
  try match goal with
    | E : (id =? _) = true |- _ => apply Z.eqb_eq in E; subst id
    end.

Section Option_loop.

Variable svn_parse_date : string -> Z.
Variable apr_ansi_time_to_apr_time : Z -> Z.
Variable svn_string_from_file : string -> svn_error_t + string.
Variable svn_wc_entry : string -> svn_error_t + bool.

Local Abbreviation switch setlocale :=
  (switch_opt_id svn_parse_date apr_ansi_time_to_apr_time
     svn_string_from_file svn_wc_entry setlocale).

Local Abbreviation scan setlocale :=
  (scan_options svn_parse_date apr_ansi_time_to_apr_time
     svn_string_from_file svn_wc_entry setlocale).

(** What one option changes, when the loop goes on after it: the force
    flag is set by the force switch alone and never cleared, the flag of
    the versioned log message file is set by a file-content switch that
    names a versioned file and never cleared, the revisions are those
    before unless the option is the revision switch, and no command is
    called. *)
Lemma switch_effect setlocale (id : Z) (arg : string) (s s' : scan_state) :
  switch setlocale id arg s = inl s' ->
  force (opt_state s') = force (opt_state s) || is_force (id, arg) /\
  log_under_version_control s' =
    log_under_version_control s || names_versioned_file svn_wc_entry (id, arg) /\
  (is_revision (id, arg) = false ->
   start_revision (opt_state s') = start_revision (opt_state s) /\
   end_revision (opt_state s') = end_revision (opt_state s)) /\
  calls (printed s') = calls (printed s).
Proof.
  unfold switch_opt_id, is_force, is_revision, names_versioned_file,
    set_opt, say.
  destruct s as [os lg out].
  cbn [opt_state log_under_version_control printed fst snd].
  opt_cases id; intros H; known_code id.
  3: { (* the date switch *)
    rewrite parse_date_fields in H.
    destruct (fields arg) as [|l [|r [|x rest]]]; cbv zeta in H;
      try discriminate H;
      [|destruct (char_is l 0 zero), (char_is r 0 zero)];
      injection H as <-; destruct os; by_fields. }
  2: { (* the revision switch *)
    rewrite parse_revision_stored in H.
    destruct (stored_range arg) as [[a b]|]; [|discriminate H].
    injection H as <-. destruct os; by_fields. }
  9: { (* the file-content switch *)
    destruct (svn_string_from_file arg); [discriminate H|].
    destruct (svn_wc_entry arg) as [err|[|]];
      injection H as <-; destruct os; by_fields. }
  5: { (* -h and -? *)
    injection H as <-. destruct os.
    match goal with
    | E : _ || _ = true |- _ =>
        apply orb_true_iff in E as [E|E]; apply Z.eqb_eq in E; subst id
    end; by_fields. }
  15: { (* the locale switch *)
    destruct (setlocale arg); injection H as <-; destruct os;
      cbn [opt_state log_under_version_control printed];
      rewrite ?calls_report by reflexivity;
      by_fields. }
  all: injection H as <-; destruct os; by_fields.
Qed.

(** When an option ends the run, no command has been called. *)
Lemma switch_abort setlocale (id : Z) (arg : string) (s : scan_state)
  (out : list event) :
  switch setlocale id arg s = inr out -> calls out = calls (printed s).
Proof.
  unfold switch_opt_id, set_opt, say.
  opt_cases id; intros H; try discriminate H.
  - rewrite parse_revision_stored in H.
    destruct (stored_range arg) as [[a b]|]; [discriminate H|].
    injection H as <-. apply calls_report. reflexivity.
  - rewrite parse_date_fields in H.
    destruct (fields arg) as [|l [|r [|x rest]]]; cbv zeta in H;
      try discriminate H;
      try (destruct (char_is l 0 zero), (char_is r 0 zero); discriminate H);
      injection H as <-; apply calls_report; reflexivity.
  - destruct (svn_string_from_file arg); [|
      destruct (svn_wc_entry arg) as [err|[|]]; discriminate H].
    injection H as <-. apply calls_report. reflexivity.
  - destruct (setlocale arg); discriminate H.
Qed.

(** The same for the whole loop. *)
Lemma scan_effect setlocale (answers : list (Z * string)) (eof : bool) :
  forall s s' : scan_state,
    scan setlocale answers eof s = inl s' ->
    force (opt_state s') = force (opt_state s) || existsb is_force answers /\
    log_under_version_control s' =
      log_under_version_control s
      || existsb (names_versioned_file svn_wc_entry) answers /\
    (existsb is_revision answers = false ->
     start_revision (opt_state s') = start_revision (opt_state s) /\
     end_revision (opt_state s') = end_revision (opt_state s)) /\
    calls (printed s') = calls (printed s).
Proof.
  induction answers as [|[id arg] answers IH]; intros s s' H.
  - simpl in H. destruct eof; [|discriminate H]. injection H as <-.
    simpl. rewrite !orb_false_r. repeat split.
  - cbn [scan_options] in H.
    destruct (switch_opt_id _ _ _ _ _ id arg s) as [s1|out] eqn:Hstep;
      [|discriminate H].
    apply switch_effect in Hstep as (Hf & Hl & Hr & Hc).
    apply IH in H as (Hf' & Hl' & Hr' & Hc').
    cbn [existsb].
    rewrite Hf', Hl', Hf, Hl, Hc', Hc, !orb_assoc.
    split; [reflexivity|]. split; [reflexivity|]. split; [|reflexivity].
    intros Hno. apply orb_false_iff in Hno as [Hno1 Hno2].
    destruct (Hr Hno1) as [<- <-]. apply (Hr' Hno2).
Qed.

Lemma scan_abort setlocale (answers : list (Z * string)) (eof : bool) :
  forall (s : scan_state) (out : list event),
    scan setlocale answers eof s = inr out ->
    calls out = calls (printed s).
Proof.
  induction answers as [|[id arg] answers IH]; intros s out H.
  - simpl in H. destruct eof; [discriminate H|]. injection H as <-.
    apply calls_report. reflexivity.
  - cbn [scan_options] in H.
    destruct (switch_opt_id _ _ _ _ _ id arg s) as [s1|out1] eqn:Hstep.
    + apply switch_effect in Hstep as (_ & _ & _ & <-).
      apply (IH _ _ H).
    + injection H as <-. apply (switch_abort _ _ _ _ _ Hstep).
Qed.

(** What [setlocale] answers bears on the diagnostics only: from two
    states that agree but for the diagnostics printed, one turn of the
    loop with one [setlocale] and with another leads to such states
    again, or ends the run in both. *)
Lemma switch_any_locale setlocale1 setlocale2 (id : Z) (arg : string)
  (s1 s2 : scan_state) :
  core s1 = core s2 ->
  match switch setlocale1 id arg s1, switch setlocale2 id arg s2 with
  | inl a, inl b => core a = core b
  | inr out1, inr out2 => calls out1 = calls out2
  | _, _ => False
  end.
Proof.
  destruct s1 as [os lg out1], s2 as [os2 lg2 out2].
  unfold core; cbn [opt_state log_under_version_control printed].
  intros H. injection H as -> -> Hc.
  unfold switch_opt_id, set_opt, say, core.
  cbn [opt_state log_under_version_control printed].
  opt_cases id.
  2: { destruct (parse_revision os2 arg) as [ret os'].
       destruct (negb (ret =? 0)); same_core. }
  2: { destruct (parse_date _ _ os2 arg) as [ret os'].
       destruct (negb (ret =? 0)); same_core. }
  9: { destruct (svn_string_from_file arg); [same_core|].
       destruct (svn_wc_entry arg) as [err|[|]]; same_core. }
  16: { destruct (setlocale1 arg), (setlocale2 arg); same_core. }
  all: same_core.
Qed.

Lemma scan_any_locale setlocale1 setlocale2 (answers : list (Z * string))
  (eof : bool) :
  forall s1 s2 : scan_state,
    core s1 = core s2 ->
    match scan setlocale1 answers eof s1, scan setlocale2 answers eof s2 with
    | inl a, inl b => core a = core b
    | inr out1, inr out2 => calls out1 = calls out2
    | _, _ => False
    end.
Proof.
  induction answers as [|[id arg] answers IH]; intros s1 s2 H.
  - simpl. destruct eof; [exact H|].
    rewrite !calls_app. unfold core in H. congruence.
  - cbn [scan_options].
    pose proof (switch_any_locale setlocale1 setlocale2 id arg s1 s2 H) as Hs.
    destruct (switch_opt_id _ _ _ _ setlocale1 id arg s1) as [a|o1];
      destruct (switch_opt_id _ _ _ _ setlocale2 id arg s2) as [b|o2];
      try contradiction.
    + apply (IH a b Hs).
    + exact Hs.
Qed.

End Option_loop.

(** ** After the option loop *)

Section Dispatch.

Variable run : svn_cl__cmd_proc_t -> list string -> svn_cl__opt_state_t ->
               option svn_error_t.
Variable table : list svn_cl__cmd_desc_t.

(** With the flag set and no force, the call is refused. *)
Lemma dispatch_refuses (i : nat) (args : list string) (s : scan_state) :
  log_under_version_control s = true ->
  force (opt_state s) = false ->
  dispatch run table i args s =
  mk_outcome (Exit EXIT_FAILURE)
    (printed s ++ [Report versioned_file_error stderr]).
Proof.
  intros Hl Hf. unfold dispatch. rewrite Hl, Hf. reflexivity.
Qed.

(** Without the flag, or with force, the routine of the entry is
    called, once. *)
Lemma dispatch_calls (i : nat) (args : list string) (s : scan_state)
  (d : svn_cl__cmd_desc_t) (f : svn_cl__cmd_proc_t) :
  log_under_version_control s && negb (force (opt_state s)) = false ->
  nth_error table i = Some d -> cmd_func d = Some f ->
  calls (trace (dispatch run table i args s)) =
  (calls (printed s) ++ [Call f args (opt_state s)])%list.
Proof.
  intros Hg Hd Hf. unfold dispatch. rewrite Hg, Hd. simpl. rewrite Hf.
  destruct (run f args (opt_state s)) as [err|];
    [destruct (negb (is_arg_parsing_error (apr_err err)))|];
    cbn [trace]; rewrite ?calls_report by reflexivity;
    rewrite calls_app; reflexivity.
Qed.

(** The status is then the one the routine's answer gives. *)
Lemma dispatch_result (i : nat) (args : list string) (s : scan_state)
  (d : svn_cl__cmd_desc_t) (f : svn_cl__cmd_proc_t) :
  log_under_version_control s && negb (force (opt_state s)) = false ->
  nth_error table i = Some d -> cmd_func d = Some f ->
  result (dispatch run table i args s) =
  match run f args (opt_state s) with
  | None => Exit EXIT_SUCCESS
  | Some _ => Exit EXIT_FAILURE
  end.
Proof.
  intros Hg Hd Hf. unfold dispatch. rewrite Hg, Hd. simpl. rewrite Hf.
  destruct (run f args (opt_state s)) as [err|];
    [destruct (negb (is_arg_parsing_error (apr_err err)))|]; reflexivity.
Qed.

(** [dispatch] calls at most one routine, with the option state of the
    scan. *)
Lemma dispatch_calls_shape (i : nat) (args : list string) (s : scan_state) :
  calls (trace (dispatch run table i args s)) = calls (printed s) \/
  exists f, calls (trace (dispatch run table i args s)) =
            (calls (printed s) ++ [Call f args (opt_state s)])%list.
Proof.
  unfold dispatch.
  destruct (log_under_version_control s && negb (force (opt_state s))).
  - left. apply calls_report. reflexivity.
  - destruct (option_map cmd_func (nth_error table i)) as [[f|]|];
      [|left; reflexivity..].
    right. exists f.
    destruct (run f args (opt_state s)) as [err|];
      [destruct (negb (is_arg_parsing_error (apr_err err)))|];
      cbn [trace]; rewrite ?calls_report by reflexivity;
      rewrite calls_app; reflexivity.
Qed.

Lemma dispatch_core (i : nat) (args : list string) (a b : scan_state) :
  core a = core b ->
  result (dispatch run table i args a) = result (dispatch run table i args b) /\
  calls (trace (dispatch run table i args a)) =
  calls (trace (dispatch run table i args b)).
Proof.
  destruct a as [os lg out1], b as [os2 lg2 out2].
  unfold core; cbn [opt_state log_under_version_control printed].
  intros H. injection H as -> -> Hc.
  unfold dispatch; cbn [opt_state log_under_version_control printed].
  destruct (lg2 && negb (force os2)); [split; [reflexivity|same_core]|].
  destruct (option_map cmd_func (nth_error table i)) as [[f|]|];
    [|split; [reflexivity|same_core]..].
  destruct (run f args os2) as [err|];
    [destruct (negb (is_arg_parsing_error (apr_err err)))|];
    (split; [reflexivity|cbn [trace]; rewrite !calls_app; congruence]).
Qed.

Lemma feedback_core (s : scan_state) :
  core (if negb (quiet (opt_state s)) then say Feedback_init s else s)
  = core s.
Proof.
  destruct (negb (quiet (opt_state s))); [|reflexivity].
  unfold core, say; cbn [opt_state log_under_version_control printed].
  rewrite calls_report by reflexivity. reflexivity.
Qed.

Lemma after_scan_calls_shape (args : list string) (s : scan_state) :
  calls (trace (after_scan run table args s)) = calls (printed s) \/
  exists f a, calls (trace (after_scan run table args s)) =
              (calls (printed s) ++ [Call f a (opt_state s)])%list.
Proof.
  unfold after_scan.
  pose proof (feedback_core s) as Hc.
  set (s1 := if negb (quiet (opt_state s)) then say Feedback_init s else s)
    in *.
  unfold core in Hc. injection Hc as Hos _ Hcalls.
  assert (Hd : forall i a,
             calls (trace (dispatch run table i a s1)) = calls (printed s) \/
             exists f a', calls (trace (dispatch run table i a s1)) =
                          (calls (printed s) ++ [Call f a' (opt_state s)])%list).
  { intros i a. rewrite <- Hos, <- Hcalls.
    destruct (dispatch_calls_shape i a s1) as [H|[f H]]; eauto. }
  destruct (if help (opt_state s)
            then svn_cl__get_canonical_command table (Some "help")
            else Null) as [|i|].
  - destruct args as [|first_arg args'].
    + left. cbn [trace]. rewrite calls_app, Hcalls. apply app_nil_r.
    + destruct (svn_cl__get_canonical_command table (Some first_arg))
        as [|i|].
      * left. cbn [trace]. rewrite calls_app, Hcalls. apply app_nil_r.
      * apply Hd.
      * left. cbn [trace]. exact Hcalls.
  - apply Hd.
  - left. cbn [trace]. exact Hcalls.
Qed.

Lemma after_scan_core (args : list string) (a b : scan_state) :
  core a = core b ->
  result (after_scan run table args a) = result (after_scan run table args b) /\
  calls (trace (after_scan run table args a)) =
  calls (trace (after_scan run table args b)).
Proof.
  intros H. unfold after_scan.
  assert (H1 : core (if negb (quiet (opt_state a))
                     then say Feedback_init a else a)
               = core (if negb (quiet (opt_state b))
                       then say Feedback_init b else b))
    by (rewrite !feedback_core; exact H).
  assert (Hos : opt_state a = opt_state b)
    by (unfold core in H; congruence).
  rewrite <- Hos in H1 |- *.
  set (a1 := if negb (quiet (opt_state a)) then say Feedback_init a else a)
    in *.
  set (b1 := if negb (quiet (opt_state a)) then say Feedback_init b else b)
    in *.
  assert (Hc : calls (printed a1) = calls (printed b1))
    by (unfold core in H1; congruence).
  destruct (if help (opt_state a)
            then svn_cl__get_canonical_command table (Some "help")
            else Null) as [|i|].
  - destruct args as [|first_arg args'].
    + split; [reflexivity|]. cbn [trace]. rewrite !calls_app. congruence.
    + destruct (svn_cl__get_canonical_command table (Some first_arg))
        as [|i|].
      * split; [reflexivity|]. cbn [trace]. rewrite !calls_app. congruence.
      * apply dispatch_core. exact H1.
      * split; [reflexivity|exact Hc].
  - apply dispatch_core. exact H1.
  - split; [reflexivity|exact Hc].
Qed.

End Dispatch.

(** ** Main *)

Lemma in_calls (f : svn_cl__cmd_proc_t) (args : list string)
  (os : svn_cl__opt_state_t) (out : list event) :
  In (Call f args os) out -> In (Call f args os) (calls out).
Proof. intros H. apply filter_In. split; [exact H|reflexivity]. Qed.

Section Main.

Variable svn_parse_date : string -> Z.
Variable apr_ansi_time_to_apr_time : Z -> Z.
Variable svn_string_from_file : string -> svn_error_t + string.
Variable svn_wc_entry : string -> svn_error_t + bool.
Variable run : svn_cl__cmd_proc_t -> list string -> svn_cl__opt_state_t ->
               option svn_error_t.

Local Abbreviation scan setlocale :=
  (scan_options svn_parse_date apr_ansi_time_to_apr_time
     svn_string_from_file svn_wc_entry setlocale).

Local Abbreviation main_with setlocale :=
  (main svn_parse_date apr_ansi_time_to_apr_time svn_string_from_file
     svn_wc_entry setlocale run).

Local Abbreviation start := (mk_scan initial_opt_state false []).

(** The exit status and the calls of a run do not depend on what
    [setlocale] answers. *)
Lemma main_any_locale setlocale1 setlocale2
  (table : list svn_cl__cmd_desc_t) (cl : command_line) :
  result (main_with setlocale1 table cl)
  = result (main_with setlocale2 table cl) /\
  calls (trace (main_with setlocale1 table cl))
  = calls (trace (main_with setlocale2 table cl)).
Proof.
  unfold main. destruct (argc cl <=? 1); [split; reflexivity|].
  pose proof (scan_any_locale svn_parse_date apr_ansi_time_to_apr_time
                svn_string_from_file svn_wc_entry setlocale1 setlocale2
                (options cl) (ends_with_eof cl) start start eq_refl) as H.
  destruct (scan_options _ _ _ _ setlocale1 _ _ _) as [a|out1];
    destruct (scan_options _ _ _ _ setlocale2 _ _ _) as [b|out2];
    try contradiction.
  - apply after_scan_core. exact H.
  - split; [reflexivity|exact H].
Qed.

(** C8.  When [setlocale] rejects the value of a locale switch, the
    failure is reported on stderr and the loop goes on: the turn of the
    loop ends with the state it began with, the report apart, the options
    that follow are scanned from that state, and the exit status and the
    command called by [main] are those of a run in which every locale
    can be set. *)
Theorem locale_failure_is_not_fatal :
  forall (setlocale : string -> bool) (locale : string),
    setlocale locale = false ->
    (forall s : scan_state,
        switch_opt_id svn_parse_date apr_ansi_time_to_apr_time
          svn_string_from_file svn_wc_entry setlocale
          svn_cl__locale_opt locale s
        = inl (mk_scan (opt_state s) (log_under_version_control s)
                 (printed s ++ [Report (locale_error locale) stderr]))) /\
    (forall (answers : list (Z * string)) (eof : bool) (s : scan_state),
        scan setlocale ((svn_cl__locale_opt, locale) :: answers) eof s
        = scan setlocale answers eof
            (mk_scan (opt_state s) (log_under_version_control s)
               (printed s ++ [Report (locale_error locale) stderr]))) /\
    (forall (table : list svn_cl__cmd_desc_t) (cl : command_line),
        result (main_with setlocale table cl)
        = result (main_with (fun _ => true) table cl) /\
        calls (trace (main_with setlocale table cl))
        = calls (trace (main_with (fun _ => true) table cl))).
Proof.
  intros setlocale locale Hrej.
  assert (Hstep : forall s : scan_state,
             switch_opt_id svn_parse_date apr_ansi_time_to_apr_time
               svn_string_from_file svn_wc_entry setlocale
               svn_cl__locale_opt locale s
             = inl (mk_scan (opt_state s) (log_under_version_control s)
                      (printed s ++ [Report (locale_error locale) stderr])))
    by (intros s; unfold switch_opt_id; cbn; rewrite Hrej; reflexivity).
  split; [exact Hstep|]. split.
  - intros answers eof s. cbn [scan_options]. rewrite Hstep. reflexivity.
  - intros table cl. apply main_any_locale.
Qed.

(** What the scan leaves of the initial state. *)
Lemma scan_from_start setlocale (cl : command_line) (s : scan_state) :
  scan setlocale (options cl) (ends_with_eof cl) start = inl s ->
  force (opt_state s) = existsb is_force (options cl) /\
  log_under_version_control s
  = existsb (names_versioned_file svn_wc_entry) (options cl) /\
  (existsb is_revision (options cl) = false ->
   start_revision (opt_state s) = SVN_INVALID_REVNUM /\
   end_revision (opt_state s) = 1) /\
  calls (printed s) = [].
Proof.
  intros H. apply scan_effect in H as (Hf & Hl & Hr & Hc).
  repeat split; try assumption; apply Hr; assumption.
Qed.

(** C9.  The option state [main] starts from has the latest sentinel as
    start revision and the concrete revision 1 as end revision, the
    sentinel being no concrete revision; when the revision switch is not
    among the options, every command that is called gets these two
    values. *)
Theorem default_revision_range :
  start_revision initial_opt_state = SVN_INVALID_REVNUM /\
  end_revision initial_opt_state = 1 /\
  SVN_INVALID_REVNUM < 0 /\
  forall (setlocale : string -> bool) (table : list svn_cl__cmd_desc_t)
    (cl : command_line) (f : svn_cl__cmd_proc_t) (args : list string)
    (os : svn_cl__opt_state_t),
    existsb is_revision (options cl) = false ->
    In (Call f args os) (trace (main_with setlocale table cl)) ->
    start_revision os = SVN_INVALID_REVNUM /\ end_revision os = 1.
Proof.
  split; [reflexivity|]. split; [reflexivity|]. split; [reflexivity|].
  intros setlocale table cl f args os Hno Hin.
  apply in_calls in Hin. unfold main in Hin.
  destruct (argc cl <=? 1); [destruct Hin|].
  destruct (scan_options _ _ _ _ _ _ _ _) as [s|out] eqn:Hscan.
  - apply scan_from_start in Hscan as (_ & _ & Hr & Hc).
    destruct (after_scan_calls_shape run table (arguments cl) s)
      as [H|(f' & a & H)]; rewrite H, Hc in Hin; [destruct Hin|].
    destruct Hin as [Hin|[]]. injection Hin as _ _ <-.
    apply Hr. exact Hno.
  - apply scan_abort in Hscan. cbn [trace] in Hin.
    rewrite Hscan in Hin. destruct Hin.
Qed.

(** C5, as the code has it.  When a file-content switch names a file
    under version control, the option loop ends without failure, and the
    subcommand is found (help was asked for, or the first argument is a
    name of the table): without the force switch [main] calls no command,
    reports the versioned-log-message error on stderr as the last thing
    it does, and returns [EXIT_FAILURE]; with the force switch it goes on
    to the chosen command: it calls, once, the routine of the canonical
    entry of the subcommand, which is "help" with all the arguments when
    help was asked for and else the first argument with the arguments
    after it, passes it the option state of the scan, and returns the
    status that the routine's answer gives. *)
Theorem versioned_log_file_guard :
  forall (setlocale : string -> bool) (cl : command_line) (s : scan_state),
    1 < argc cl ->
    scan setlocale (options cl) (ends_with_eof cl) start = inl s ->
    existsb (names_versioned_file svn_wc_entry) (options cl) = true ->
    (help (opt_state s) = true \/
     exists first rest i,
       arguments cl = first :: rest /\
       get_cmd_table_entry svn_cl__cmd_table (Some first) = Entry i) ->
    let out := main_with setlocale svn_cl__cmd_table cl in
    if existsb is_force (options cl)
    then exists subcommand args c d f,
        (if help (opt_state s)
         then subcommand = "help" /\ args = arguments cl
         else arguments cl = subcommand :: args) /\
        svn_cl__get_canonical_command svn_cl__cmd_table (Some subcommand)
        = Entry c /\
        nth_error svn_cl__cmd_table c = Some d /\
        cmd_func d = Some f /\
        calls (trace out) = [Call f args (opt_state s)] /\
        result out = match run f args (opt_state s) with
                     | None => Exit EXIT_SUCCESS
                     | Some _ => Exit EXIT_FAILURE
                     end
    else result out = Exit EXIT_FAILURE /\
         last (trace out) Usage = Report versioned_file_error stderr /\
         calls (trace out) = [].
Proof.
  intros setlocale cl s Hargc Hscan Hversioned Hsub out. subst out.
  unfold main. destruct (Z.leb_spec (argc cl) 1) as [|_]; [lia|].
  rewrite Hscan.
  apply scan_from_start in Hscan as (Hf & Hl & _ & Hc).
  rewrite Hversioned in Hl. rewrite <- Hf.
  unfold after_scan.
  pose proof (feedback_core s) as Hcore.
  set (s1 := if negb (quiet (opt_state s)) then say Feedback_init s else s)
    in *.
  unfold core in Hcore. injection Hcore as Hos Hlog Hcalls.
  rewrite Hl in Hlog. rewrite Hc in Hcalls.
  destruct (force (opt_state s)) eqn:Hforce.
  - assert (Hd : forall c d f args,
               nth_error svn_cl__cmd_table c = Some d ->
               cmd_func d = Some f ->
               calls (trace (dispatch run svn_cl__cmd_table c args s1))
               = [Call f args (opt_state s)] /\
               result (dispatch run svn_cl__cmd_table c args s1)
               = match run f args (opt_state s) with
                 | None => Exit EXIT_SUCCESS
                 | Some _ => Exit EXIT_FAILURE
                 end).
    { intros c d f args Hd Hfunc.
      assert (Hg : log_under_version_control s1
                   && negb (force (opt_state s1)) = false)
        by (rewrite Hos, Hforce; apply andb_false_r).
      rewrite (dispatch_calls run _ c args s1 d f Hg Hd Hfunc).
      rewrite (dispatch_result run _ c args s1 d f Hg Hd Hfunc).
      rewrite Hcalls, Hos. split; reflexivity. }
    destruct (help (opt_state s)) eqn:Hhelp.
    + change (svn_cl__get_canonical_command svn_cl__cmd_table (Some "help"))
        with (Entry 16).
      cbv beta iota zeta.
      exists "help", (arguments cl), 16%nat. eexists. exists svn_cl__help.
      split; [split; reflexivity|].
      split; [reflexivity|].
      split; [reflexivity|].
      split; [reflexivity|].
      eapply (Hd 16%nat); reflexivity.
    + destruct Hsub as [Hsub|(first & rest & i & Hargs & Hfound)];
        [discriminate Hsub|].
      rewrite Hargs.
      destruct (found_canonical _ _ Hfound)
        as (c & d & e & f & _ & Hcan & Hd' & _ & Hfunc & _).
      rewrite Hcan. cbv beta iota zeta.
      exists first, rest, c, d, f.
      split; [reflexivity|].
      split; [exact Hcan|].
      split; [exact Hd'|].
      split; [exact Hfunc|].
      apply (Hd c d f rest Hd' Hfunc).
  - assert (Hd : forall c args,
               result (dispatch run svn_cl__cmd_table c args s1)
               = Exit EXIT_FAILURE /\
               last (trace (dispatch run svn_cl__cmd_table c args s1))
                 Usage = Report versioned_file_error stderr /\
               calls (trace (dispatch run svn_cl__cmd_table c args s1))
               = []).
    { intros c args.
      assert (Hforce1 : force (opt_state s1) = false)
        by (rewrite Hos; exact Hforce).
      rewrite (dispatch_refuses run _ c args s1 Hlog Hforce1).
      cbn [result trace]. rewrite last_last, calls_report, Hcalls
        by reflexivity.
      repeat split. }
    destruct (help (opt_state s)) eqn:Hhelp.
    + change (svn_cl__get_canonical_command svn_cl__cmd_table (Some "help"))
        with (Entry 16).
      apply Hd.
    + destruct Hsub as [Hsub|(first & rest & i & -> & Hfound)];
        [discriminate Hsub|].
      destruct (found_canonical _ _ Hfound)
        as (c & d & e & f & _ & -> & _).
      apply Hd.
Qed.

End Main.

Lemma locale_failure_is_not_fatal_witness :
  Sample.main
    (mk_command_line 5 [(svn_cl__locale_opt, "xx_YY"); (ch "v", "")] true
       ["st"; "foo"])
  = mk_outcome (Exit EXIT_SUCCESS)
      [Report (locale_error "xx_YY") stderr; Feedback_init;
       Call svn_cl__status ["foo"] (set_verbose true initial_opt_state)].
Proof.
  unfold Sample.main, main. cbn [argc options ends_with_eof Z.leb].
  rewrite (proj1 (proj2 (locale_failure_is_not_fatal
                           Sample.svn_parse_date
                           Sample.apr_ansi_time_to_apr_time
                           Sample.svn_string_from_file Sample.svn_wc_entry
                           Sample.run Sample.setlocale "xx_YY" eq_refl))).
  reflexivity.
Defined.

Lemma default_revision_range_witness :
  start_revision (set_verbose true initial_opt_state) = SVN_INVALID_REVNUM /\
  end_revision (set_verbose true initial_opt_state) = 1.
Proof.
  apply (proj2 (proj2 (proj2
           (default_revision_range Sample.svn_parse_date
              Sample.apr_ansi_time_to_apr_time Sample.svn_string_from_file
              Sample.svn_wc_entry Sample.run)))
           Sample.setlocale svn_cl__cmd_table
           (mk_command_line 3 [(ch "v", "")] true ["log"])
           svn_cl__log [] (set_verbose true initial_opt_state)).
  - reflexivity.
  - right. left. reflexivity.
Defined.

Lemma versioned_log_file_guard_witness :
  let out :=
    Sample.main (mk_command_line 4 [(ch "F", "log.txt")] true ["ci"]) in
  let forced :=
    Sample.main
      (mk_command_line 5 [(ch "F", "log.txt"); (svn_cl__force_opt, "")] true
         ["ci"; "a.c"]) in
  (result out = Exit EXIT_FAILURE /\
   last (trace out) Usage = Report versioned_file_error stderr /\
   calls (trace out) = []) /\
  calls (trace forced)
  = [Call svn_cl__commit ["a.c"]
       (set_force true
          (set_filedata (Some "Fix the frobnicator.") initial_opt_state))].
Proof.
  split.
  - apply (versioned_log_file_guard Sample.svn_parse_date
             Sample.apr_ansi_time_to_apr_time Sample.svn_string_from_file
             Sample.svn_wc_entry Sample.run Sample.setlocale
             (mk_command_line 4 [(ch "F", "log.txt")] true ["ci"])
             (mk_scan (set_filedata (Some "Fix the frobnicator.")
                         initial_opt_state) true [])).
    + reflexivity.
    + reflexivity.
    + reflexivity.
    + right. exists "ci", [], 7%nat. split; reflexivity.
  - destruct (versioned_log_file_guard Sample.svn_parse_date
                Sample.apr_ansi_time_to_apr_time Sample.svn_string_from_file
                Sample.svn_wc_entry Sample.run Sample.setlocale
                (mk_command_line 5
                   [(ch "F", "log.txt"); (svn_cl__force_opt, "")] true
                   ["ci"; "a.c"])
                (mk_scan (set_force true
                            (set_filedata (Some "Fix the frobnicator.")
                               initial_opt_state)) true [])
                eq_refl eq_refl eq_refl
                (or_intror
                   (ex_intro _ "ci"
                      (ex_intro _ ["a.c"]
                         (ex_intro _ 7%nat (conj eq_refl eq_refl))))))
      as (subcommand & args & c & d & f & Hsub & Hc & Hd & Hf & Hcalls & _).
    cbn in Hsub. injection Hsub as <- <-.
    vm_compute in Hc. injection Hc as <-.
    vm_compute in Hd. injection Hd as <-.
    vm_compute in Hf. injection Hf as <-.
    exact Hcalls.
Defined.

(** C5 as stated fails: a file-content switch names a file under version
    control and there is no force switch, yet the run ends with the error
    of an unknown command, and the versioned-log-message error is never
    reported; and with the force switch the same run calls no command. *)
Lemma versioned_log_file_unknown_command :
  let cl := mk_command_line 4 [(ch "F", "log.txt")] true ["bogus"] in
  let forced :=
    mk_command_line 5 [(ch "F", "log.txt"); (svn_cl__force_opt, "")] true
      ["bogus"] in
  existsb (names_versioned_file Sample.svn_wc_entry) (options cl) = true /\
  existsb is_force (options cl) = false /\
  Sample.main cl =
    mk_outcome (Exit EXIT_FAILURE)
      [Feedback_init; Fprintf stderr "unknown command: bogus"; Usage] /\
  existsb (is_stderr_report_of SVN_ERR_CL_LOG_MESSAGE_IS_VERSIONED_FILE)
    (trace (Sample.main cl)) = false /\
  existsb (names_versioned_file Sample.svn_wc_entry) (options forced) = true /\
  existsb is_force (options forced) = true /\
  calls (trace (Sample.main forced)) = [].
Proof. repeat split. Qed.


(** * Further properties *)

(** ** The option table *)

Lemma option_scan_spec (code : Z) (rest : list Apr.getopt_option_t) :
  forall i n : nat,
    match option_scan code rest i n with
    | Opt_entry k =>
        (i <= k < i + n)%nat /\
        (exists o, nth_error rest (k - i) = Some o /\ Apr.optch o = code) /\
        (forall j o, (j < k - i)%nat -> nth_error rest j = Some o ->
                     Apr.optch o <> code)
    | Opt_null =>
        (n <= length rest)%nat /\
        (forall j o, (j < n)%nat -> nth_error rest j = Some o ->
                     Apr.optch o <> code)
    | Opt_outside =>
        (length rest < n)%nat /\
        (forall o, In o rest -> Apr.optch o <> code)
    end.
Proof.
  induction rest as [|o rest IH]; intros i n; destruct n as [|n]; simpl.
  - split; [lia|]. intros j o Hj. lia.
  - split; [lia|]. intros o [].
  - split; [lia|]. intros j o' Hj. lia.
  - destruct (Z.eqb_spec (Apr.optch o) code) as [Heq|Hne].
    + rewrite Nat.sub_diag. split; [lia|].
      split; [exists o; split; [reflexivity|exact Heq]|].
      intros j o' Hj. lia.
    + specialize (IH (S i) n).
      destruct (option_scan code rest (S i) n) as [|k|].
      * destruct IH as [Hlen Hall]. split; [lia|].
        intros [|j] o' Hj Ho'; simpl in Ho'.
        -- congruence.
        -- apply (Hall j o'); [lia|exact Ho'].
      * destruct IH as (Hk & (o' & Ho' & Hcode) & Hbefore).
        split; [lia|]. split.
        -- exists o'. replace (k - i)%nat with (S (k - S i)) by lia.
           split; assumption.
        -- intros [|j] o'' Hj Ho''; simpl in Ho''.
           ++ congruence.
           ++ apply (Hbefore j o''); [lia|exact Ho''].
      * destruct IH as [Hlen Hall]. split; [lia|].
        intros o' [<-|Hin]; [exact Hne|apply (Hall o' Hin)].
Qed.

(** X1.  [svn_cl__get_option_from_enum] returns the first of the first
    [SVN_CL__MAX_OPTS] entries of the table whose code is the one asked
    for; it returns null when the table has that many entries and none of
    them has the code, and runs past the table only when the table is
    shorter and has no entry with the code. *)
Theorem first_option_with_code :
  forall (code : Z) (option_table : list Apr.getopt_option_t),
    match svn_cl__get_option_from_enum code option_table with
    | Opt_entry k =>
        (k < SVN_CL__MAX_OPTS)%nat /\
        (exists o, nth_error option_table k = Some o /\ Apr.optch o = code) /\
        (forall j o, (j < k)%nat -> nth_error option_table j = Some o ->
                     Apr.optch o <> code)
    | Opt_null =>
        (SVN_CL__MAX_OPTS <= length option_table)%nat /\
        (forall j o, (j < SVN_CL__MAX_OPTS)%nat ->
                     nth_error option_table j = Some o ->
                     Apr.optch o <> code)
    | Opt_outside =>
        (length option_table < SVN_CL__MAX_OPTS)%nat /\
        (forall o, In o option_table -> Apr.optch o <> code)
    end.
Proof.
  intros code option_table. unfold svn_cl__get_option_from_enum.
  pose proof (option_scan_spec code option_table 0 SVN_CL__MAX_OPTS) as H.
  destruct (option_scan code option_table 0 SVN_CL__MAX_OPTS) as [|k|];
    [exact H| |exact H].
  rewrite Nat.sub_0_r in H. destruct H as (Hk & Ho & Hbefore).
  split; [lia|]. split; assumption.
Qed.

(** X2.  [svn_cl__options] has [SVN_CL__MAX_OPTS] entries, and no two of
    them have the same code: looking up the code of any entry, the
    terminator included, returns that entry. *)
Theorem option_code_round_trip :
  length svn_cl__options = SVN_CL__MAX_OPTS /\
  forall (i : nat) (o : Apr.getopt_option_t),
    nth_error svn_cl__options i = Some o ->
    svn_cl__get_option_from_enum (Apr.optch o) svn_cl__options = Opt_entry i.
Proof.
  split; [reflexivity|].
  intros i o H.
  do 20 (destruct i as [|i]; [injection H as <-; reflexivity|]).
  destruct i; discriminate H.
Qed.

Lemma option_code_round_trip_witness :
  svn_cl__get_option_from_enum svn_cl__xml_file_opt svn_cl__options
  = Opt_entry 10.
Proof.
  apply (proj2 option_code_round_trip 10%nat
           (switch_entry "xml-file" svn_cl__xml_file_opt 1
              "read/write xml to specified file")).
  reflexivity.
Defined.

(** X3.  Every code that an entry of the command table lists among its
    valid options, 0 apart, is the code of an entry of [svn_cl__options]
    that has a name and a description: [print_command_info] skips none of
    them and [print_option] prints a line for each. *)
Theorem valid_options_are_options :
  forall (d : svn_cl__cmd_desc_t) (code : Z),
    In d svn_cl__cmd_table -> In code (valid_options d) -> code <> 0 ->
    exists i o line,
      svn_cl__get_option_from_enum code svn_cl__options = Opt_entry i /\
      nth_error svn_cl__options i = Some o /\
      Apr.optch o = code /\
      print_option o = Some line.
Proof.
  intros d code Hd Hcode Hnz.
  assert (Hall :
    forallb (fun d =>
      forallb (fun code =>
        (code =? 0)
        || match svn_cl__get_option_from_enum code svn_cl__options with
           | Opt_entry i =>
               match nth_error svn_cl__options i with
               | Some o =>
                   (Apr.optch o =? code)
                   && match print_option o with
                      | Some _ => true
                      | None => false
                      end
               | None => false
               end
           | _ => false
           end) (valid_options d)) svn_cl__cmd_table = true)
    by (vm_compute; reflexivity).
  rewrite forallb_forall in Hall. specialize (Hall d Hd).
  rewrite forallb_forall in Hall. specialize (Hall code Hcode).
  apply orb_true_iff in Hall as [Hz|Hall];
    [apply Z.eqb_eq in Hz; contradiction|].
  destruct (svn_cl__get_option_from_enum code svn_cl__options) as [|i|]
    eqn:Hfound; try discriminate Hall.
  destruct (nth_error svn_cl__options i) as [o|] eqn:Ho;
    [|discriminate Hall].
  apply andb_true_iff in Hall as [Hc Hp]. apply Z.eqb_eq in Hc.
  destruct (print_option o) as [line|] eqn:Hline; [|discriminate Hp].
  exists i, o, line. repeat split; solve [assumption|reflexivity].
Qed.

Lemma valid_options_are_options_witness :
  exists i o line,
    svn_cl__get_option_from_enum svn_cl__force_opt svn_cl__options
    = Opt_entry i /\
    nth_error svn_cl__options i = Some o /\
    Apr.optch o = svn_cl__force_opt /\
    print_option o = Some line.
Proof.
  apply (valid_options_are_options
           (command "delete" svn_cl__delete
      "Remove files and directories from version control.
usage: delete [TARGET]
       delete REPOS_URL1 [[REPOS_URL2] ... ]
"
      [ch "F"; ch "m"; svn_cl__auth_username_opt; svn_cl__auth_password_opt;
       svn_cl__force_opt])).
  - apply (nth_error_In svn_cl__cmd_table 10). reflexivity.
  - vm_compute. tauto.
  - discriminate.
Defined.

(** ** Names of the command table *)

Lemma table_scan_inside (cmd_name : string)
  (rest : list svn_cl__cmd_desc_t) :
  forall i : nat,
    (exists d, In d rest /\ name d = None) ->
    table_scan cmd_name rest i <> Outside.
Proof.
  induction rest as [|e rest IH]; intros i [d [Hin Hd]]; [destruct Hin|].
  simpl. destruct (name e) as [n|] eqn:Hn; [|discriminate].
  destruct (strcmp cmd_name n =? 0); [discriminate|].
  apply IH. destruct Hin as [->|Hin]; [congruence|eauto].
Qed.

Lemma declared_table_terminated :
  exists d, In d svn_cl__cmd_table /\ name d = None.
Proof.
  exists (mk_cmd_desc None false None None (opts [0])).
  split; [|reflexivity].
  apply (nth_error_In svn_cl__cmd_table 48). reflexivity.
Qed.

(** A name that an entry of the declared table has is found. *)
Lemma declared_name_found (cmd_name : string) (d : svn_cl__cmd_desc_t) :
  In d svn_cl__cmd_table -> name d = Some cmd_name ->
  exists i, get_cmd_table_entry svn_cl__cmd_table (Some cmd_name) = Entry i.
Proof.
  intros Hin Hd. apply In_nth_error in Hin as [m Hm].
  apply (table_scan_finds cmd_name svn_cl__cmd_table 0 m d Hm Hd).
  intros j e Hj He Hnone.
  apply (declared_table_named j e He) in Hnone. subst j.
  assert ((m < 49)%nat)
    by (change 49%nat with (length svn_cl__cmd_table);
        apply nth_error_Some; congruence).
  assert (m <> 48%nat); [|lia].
  intros ->. pose proof (proj2 (declared_table_named 48 d Hm) eq_refl).
  congruence.
Qed.

(** The three ways a lookup in the declared table can end. *)
Lemma declared_lookup (cmd_name : string) :
  (get_cmd_table_entry svn_cl__cmd_table (Some cmd_name) = Null /\
   svn_cl__get_canonical_command svn_cl__cmd_table (Some cmd_name) = Null /\
   forall d, In d svn_cl__cmd_table -> name d <> Some cmd_name) \/
  (exists i c d e f cn,
      get_cmd_table_entry svn_cl__cmd_table (Some cmd_name) = Entry i /\
      nth_error svn_cl__cmd_table i = Some e /\
      name e = Some cmd_name /\
      svn_cl__get_canonical_command svn_cl__cmd_table (Some cmd_name)
      = Entry c /\
      nth_error svn_cl__cmd_table c = Some d /\
      cmd_func d = Some f /\
      name d = Some cn /\
      svn_cl__get_canonical_command svn_cl__cmd_table (Some cn) = Entry c).
Proof.
  destruct (get_cmd_table_entry svn_cl__cmd_table (Some cmd_name))
    as [|i|] eqn:Hget.
  - left. split; [reflexivity|]. split.
    + unfold svn_cl__get_canonical_command. rewrite Hget. reflexivity.
    + intros d Hin Hd.
      destruct (declared_name_found cmd_name d Hin Hd) as [k Hk]. congruence.
  - right.
    destruct (found_entry _ _ Hget) as (_ & e' & He' & Hname).
    destruct (found_canonical _ _ Hget)
      as (c & d & e & f & He & Hc & Hd & _ & Hf & _ & Hagain & _).
    destruct (name d) as [cn|] eqn:Hcn; [|discriminate Hagain].
    exists i, c, d, e, f, cn.
    repeat split; try assumption. congruence.
  - exfalso. apply (table_scan_inside cmd_name svn_cl__cmd_table 0);
      [apply declared_table_terminated|exact Hget].
Qed.

(** The name of an entry of the declared table is found at that entry. *)
Lemma declared_names_distinct (i : nat) (d : svn_cl__cmd_desc_t)
  (n : string) :
  nth_error svn_cl__cmd_table i = Some d -> name d = Some n ->
  get_cmd_table_entry svn_cl__cmd_table (Some n) = Entry i.
Proof.
  intros Hd Hn.
  assert (Hi : (i < 48)%nat).
  { assert ((i < 49)%nat)
      by (change 49%nat with (length svn_cl__cmd_table);
          apply nth_error_Some; congruence).
    assert (i <> 48%nat); [|lia].
    intros ->. pose proof (proj2 (declared_table_named 48 d Hd) eq_refl).
    congruence. }
  assert (Hok : Checks.found_at_itself i = true)
    by (apply (below_forallb Checks.found_at_itself 48);
        [vm_compute; reflexivity|exact Hi]).
  unfold Checks.found_at_itself in Hok. rewrite Hd, Hn in Hok.
  destruct (get_cmd_table_entry svn_cl__cmd_table (Some n)) as [|k|];
    try discriminate Hok.
  simpl in Hok. apply Nat.eqb_eq in Hok. congruence.
Qed.

(** X4.  No two entries of the command table have the same name: looking
    up the name of any entry, canonical or alias, returns that entry. *)
Theorem command_name_round_trip :
  forall (i : nat) (d : svn_cl__cmd_desc_t) (n : string),
    nth_error svn_cl__cmd_table i = Some d -> name d = Some n ->
    get_cmd_table_entry svn_cl__cmd_table (Some n) = Entry i.
Proof. intros i d n. apply declared_names_distinct. Qed.

Lemma command_name_round_trip_witness :
  get_cmd_table_entry svn_cl__cmd_table (Some "pe") = Entry 30.
Proof.
  apply (command_name_round_trip 30 (alias "pe") "pe"); reflexivity.
Defined.

(** ** Help on a subcommand *)

Lemma and_then_some (a b : text) (t : string) :
  and_then a b = Some t ->
  exists x y, a = Some x /\ b = Some y /\ t = x ++ y.
Proof.
  destruct a as [x|], b as [y|]; simpl; intros H; try discriminate H.
  injection H as <-. eauto.
Qed.

(** Detailed help is defined for every canonical entry of the declared
    tables. *)
Lemma canonical_help_defined (c : nat) (d : svn_cl__cmd_desc_t) :
  nth_error svn_cl__cmd_table c = Some d -> is_alias d = false ->
  name d <> None ->
  exists txt,
    print_command_info svn_cl__cmd_table svn_cl__options d true = Some txt.
Proof.
  intros Hd Hna Hnamed.
  assert (Hc : (c < 48)%nat).
  { assert ((c < 49)%nat)
      by (change 49%nat with (length svn_cl__cmd_table);
          apply nth_error_Some; congruence).
    assert (c <> 48%nat); [|lia].
    intros ->. apply Hnamed. apply (declared_table_named 48 d Hd).
    reflexivity. }
  assert (Hall :
    forallb (fun c =>
      match nth_error svn_cl__cmd_table c with
      | Some d =>
          is_alias d
          || match print_command_info svn_cl__cmd_table svn_cl__options d true
             with
             | Some _ => true
             | None => false
             end
      | None => false
      end) (seq 0 48) = true)
    by (vm_compute; reflexivity).
  pose proof (below_forallb _ 48 Hall c Hc) as H. cbv beta in H.
  rewrite Hd, Hna in H. simpl in H.
  destruct (print_command_info svn_cl__cmd_table svn_cl__options d true)
    as [txt|]; [eauto|discriminate H].
Qed.

(** X5.  Help on an alias is the help on its command: for every name
    found in the table, [svn_cl__subcommand_help] writes to stdout, what it
    writes is defined and begins with the canonical name, and it writes the
    same for the canonical name. *)
Theorem help_on_alias_is_help_on_command :
  forall (subcommand : string) (i : nat),
    get_cmd_table_entry svn_cl__cmd_table (Some subcommand) = Entry i ->
    exists c d cn txt rest,
      svn_cl__get_canonical_command svn_cl__cmd_table (Some subcommand)
      = Entry c /\
      nth_error svn_cl__cmd_table c = Some d /\
      name d = Some cn /\
      svn_cl__subcommand_help svn_cl__cmd_table svn_cl__options subcommand
      = (stdout, Some txt) /\
      svn_cl__subcommand_help svn_cl__cmd_table svn_cl__options cn
      = (stdout, Some txt) /\
      txt = cn ++ rest.
Proof.
  intros subcommand i Hget.
  destruct (declared_lookup subcommand)
    as [(Hnull & _)|(i' & c & d & e & f & cn & _ & _ & _ & Hc & Hd & _ & Hcn
                     & Hagain)]; [congruence|].
  destruct (found_canonical _ _ Hget)
    as (c' & d' & _ & _ & _ & Hc' & Hd' & Hna & _).
  assert (c' = c) as -> by congruence.
  assert (d' = d) as -> by congruence.
  destruct (canonical_help_defined c d Hd Hna) as [txt Htxt];
    [congruence|].
  assert (Hrest : exists rest, txt = cn ++ rest).
  { unfold print_command_info in Htxt. rewrite Hcn, Hagain, Hd, Hcn in Htxt.
    apply and_then_some in Htxt as (x & y & Hx & _ & ->).
    injection Hx as <-. eauto. }
  destruct Hrest as [rest Hrest].
  exists c, d, cn, txt, rest.
  unfold svn_cl__subcommand_help. rewrite Hc, Hagain, Hd, Htxt.
  repeat split; assumption.
Qed.

Lemma help_on_alias_is_help_on_command_witness :
  exists c d cn txt rest,
    svn_cl__get_canonical_command svn_cl__cmd_table (Some "rm") = Entry c /\
    nth_error svn_cl__cmd_table c = Some d /\
    name d = Some cn /\
    svn_cl__subcommand_help svn_cl__cmd_table svn_cl__options "rm"
    = (stdout, Some txt) /\
    svn_cl__subcommand_help svn_cl__cmd_table svn_cl__options cn
    = (stdout, Some txt) /\
    txt = cn ++ rest.
Proof.
  apply (help_on_alias_is_help_on_command "rm" 13). reflexivity.
Defined.

(** X6.  [svn_cl__subcommand_help] writes to stderr exactly for the names
    that no entry of the table has, and what it writes then is the name in
    quotes followed by ": unknown command." and two line breaks. *)
Theorem unknown_subcommand_help :
  forall subcommand : string,
    (fst (svn_cl__subcommand_help svn_cl__cmd_table svn_cl__options
            subcommand) = stderr <->
     forall d, In d svn_cl__cmd_table -> name d <> Some subcommand) /\
    (fst (svn_cl__subcommand_help svn_cl__cmd_table svn_cl__options
            subcommand) = stderr ->
     snd (svn_cl__subcommand_help svn_cl__cmd_table svn_cl__options
            subcommand)
     = Some (quote ++ subcommand ++ quote ++ ": unknown command."
             ++ nl ++ nl)).
Proof.
  intros subcommand. unfold svn_cl__subcommand_help.
  destruct (declared_lookup subcommand)
    as [(_ & -> & Hnone)|(i & c & d & e & f & cn & _ & He & Hname & -> & Hd & _)].
  - split; [split; [intros _; exact Hnone|reflexivity]|reflexivity].
  - rewrite Hd. simpl. split; [split|]; try discriminate.
    intros Hnone. exfalso. apply (Hnone e); [|exact Hname].
    apply (nth_error_In _ _ He).
Qed.

Lemma unknown_subcommand_help_witness :
  snd (svn_cl__subcommand_help svn_cl__cmd_table svn_cl__options "comit")
  = Some (quote ++ "comit" ++ quote ++ ": unknown command." ++ nl ++ nl).
Proof.
  apply (proj2 (unknown_subcommand_help "comit")). reflexivity.
Defined.

(** ** The aliases of a command *)

Lemma append_assoc (a b c : string) : (a ++ b) ++ c = a ++ b ++ c.
Proof. induction a as [|x a IH]; simpl; [reflexivity|]. rewrite IH. reflexivity. Qed.

(** When the loop over the aliases comes to an entry that ends it, it has
    printed the names it went over, with commas, in parentheses. *)
Lemma print_aliases_listed (rest : list svn_cl__cmd_desc_t) :
  (exists d, In d rest /\ (is_alias d = false \/ name d = None)) ->
  print_aliases rest false = Some (after_commas (listed_aliases rest)) /\
  print_aliases rest true = Some (in_parentheses (listed_aliases rest)).
Proof.
  induction rest as [|e rest IH]; intros [d [Hin Hd]]; [destruct Hin|].
  simpl. destruct (name e) as [n|] eqn:Hn; [|split; reflexivity].
  destruct (is_alias e) eqn:Ha; [|split; reflexivity].
  assert (Hrest : exists d, In d rest /\ (is_alias d = false \/ name d = None)).
  { destruct Hin as [->|Hin]; [|eauto].
    destruct Hd; congruence. }
  destruct (IH Hrest) as [-> _]. simpl.
  rewrite ?append_assoc. split; reflexivity.
Qed.

(** X7.  The aliases that help shows after a command are the aliases of
    that command: for every canonical entry of the table, the loop of
    [print_command_info] prints, in parentheses and separated by commas,
    the names of the entries it goes over, and a name is one of them
    exactly when it is the name of an alias entry that
    [svn_cl__get_canonical_command] resolves to this entry. *)
Theorem listed_aliases_resolve :
  forall (c : nat) (d : svn_cl__cmd_desc_t),
    nth_error svn_cl__cmd_table c = Some d ->
    is_alias d = false -> name d <> None ->
    print_aliases (skipn (S c) svn_cl__cmd_table) true
    = Some (in_parentheses (listed_aliases (skipn (S c) svn_cl__cmd_table))) /\
    forall n : string,
      In n (listed_aliases (skipn (S c) svn_cl__cmd_table)) <->
      exists j e,
        nth_error svn_cl__cmd_table j = Some e /\
        name e = Some n /\ is_alias e = true /\
        svn_cl__get_canonical_command svn_cl__cmd_table (Some n) = Entry c.
Proof.
  intros c d Hd Hna Hnamed.
  assert (Hc : (c < 48)%nat).
  { assert ((c < 49)%nat)
      by (change 49%nat with (length svn_cl__cmd_table);
          apply nth_error_Some; congruence).
    assert (c <> 48%nat); [|lia].
    intros ->. apply Hnamed. apply (declared_table_named 48 d Hd).
    reflexivity. }
  split.
  - apply print_aliases_listed.
    assert (Hall :
      forallb (fun c =>
        existsb (fun d => negb (is_alias d))
          (skipn (S c) svn_cl__cmd_table)) (seq 0 48) = true)
      by (vm_compute; reflexivity).
    pose proof (below_forallb _ 48 Hall c Hc) as H. cbv beta in H.
    apply existsb_exists in H as [x [Hx Hx']].
    exists x. split; [exact Hx|]. left. apply negb_true_iff. exact Hx'.
  - intros n. split.
    + intros Hin.
      assert (Hall :
        forallb (fun c =>
          match nth_error svn_cl__cmd_table c with
          | Some d => is_alias d
          | None => false
          end ||
          forallb (fun n =>
            match get_cmd_table_entry svn_cl__cmd_table (Some n) with
            | Entry j =>
                match nth_error svn_cl__cmd_table j with
                | Some e =>
                    Checks.name_eqb (name e) (Some n) && is_alias e
                    && Checks.ptr_eqb
                         (svn_cl__get_canonical_command svn_cl__cmd_table
                            (Some n)) (Entry c)
                | None => false
                end
            | _ => false
            end) (listed_aliases (skipn (S c) svn_cl__cmd_table)))
          (seq 0 48) = true)
        by (vm_compute; reflexivity).
      pose proof (below_forallb _ 48 Hall c Hc) as H. cbv beta in H.
      rewrite Hd, Hna, orb_false_l in H.
      rewrite forallb_forall in H. specialize (H n Hin).
      destruct (get_cmd_table_entry svn_cl__cmd_table (Some n)) as [|j|];
        try discriminate H.
      destruct (nth_error svn_cl__cmd_table j) as [e|] eqn:He;
        [|discriminate H].
      apply andb_true_iff in H as [H Hp].
      apply andb_true_iff in H as [Hname Halias].
      exists j, e. split; [exact He|].
      destruct (name e) as [n'|]; [|discriminate Hname].
      simpl in Hname. apply String.eqb_eq in Hname as ->.
      split; [reflexivity|]. split; [exact Halias|].
      destruct (svn_cl__get_canonical_command svn_cl__cmd_table (Some n))
        as [|c'|]; try discriminate Hp.
      simpl in Hp. apply Nat.eqb_eq in Hp as ->. reflexivity.
    + intros (j & e & He & Hname & Halias & Hcanon).
      assert (Hj : (j < 48)%nat).
      { assert ((j < 49)%nat)
          by (change 49%nat with (length svn_cl__cmd_table);
              apply nth_error_Some; congruence).
        assert (j <> 48%nat); [|lia].
        intros ->. pose proof (proj2 (declared_table_named 48 e He) eq_refl).
        congruence. }
      assert (Hall :
        forallb (fun j =>
          match nth_error svn_cl__cmd_table j with
          | Some e =>
              negb (is_alias e)
              || match name e,
                       svn_cl__get_canonical_command svn_cl__cmd_table (name e)
                 with
                 | Some n, Entry c =>
                     existsb (String.eqb n)
                       (listed_aliases (skipn (S c) svn_cl__cmd_table))
                 | _, _ => false
                 end
          | None => false
          end) (seq 0 48) = true)
        by (vm_compute; reflexivity).
      pose proof (below_forallb _ 48 Hall j Hj) as H. cbv beta in H.
      rewrite He, Halias, Hname, Hcanon in H. cbn [negb orb] in H.
      apply existsb_exists in H as [x [Hx Heq]].
      apply String.eqb_eq in Heq as ->. exact Hx.
Qed.

Lemma listed_aliases_resolve_witness :
  print_aliases (skipn 11 svn_cl__cmd_table) true
  = Some (in_parentheses (listed_aliases (skipn 11 svn_cl__cmd_table))) /\
  forall n : string,
    In n (listed_aliases (skipn 11 svn_cl__cmd_table)) <->
    exists j e,
      nth_error svn_cl__cmd_table j = Some e /\
      name e = Some n /\ is_alias e = true /\
      svn_cl__get_canonical_command svn_cl__cmd_table (Some n) = Entry 10.
Proof.
  apply (listed_aliases_resolve 10
           (command "delete" svn_cl__delete
      "Remove files and directories from version control.
usage: delete [TARGET]
       delete REPOS_URL1 [[REPOS_URL2] ... ]
"
      [ch "F"; ch "m"; svn_cl__auth_username_opt; svn_cl__auth_password_opt;
       svn_cl__force_opt])); [reflexivity|reflexivity|discriminate].
Defined.

(** ** What the options leave in the option state *)

Section Option_values.

Variable svn_parse_date : string -> Z.
Variable apr_ansi_time_to_apr_time : Z -> Z.
Variable svn_string_from_file : string -> svn_error_t + string.
Variable svn_wc_entry : string -> svn_error_t + bool.
Variable setlocale : string -> bool.

Local Abbreviation switch :=
  (switch_opt_id svn_parse_date apr_ansi_time_to_apr_time
     svn_string_from_file svn_wc_entry setlocale).

Local Abbreviation scan :=
  (scan_options svn_parse_date apr_ansi_time_to_apr_time
     svn_string_from_file svn_wc_entry setlocale).

Local Abbreviation start := (mk_scan initial_opt_state false []).

(** The contents of a file that can be read. *)
Local Abbreviation contents path :=
  (match svn_string_from_file path with
   | inr data => Some data
   | inl _ => None
   end).

(** Field by field, what one option changes when the loop goes on after
    it. *)
Lemma switch_fields (id : Z) (arg : string) (s s' : scan_state) :
  switch id arg s = inl s' ->
  verbose (opt_state s') = verbose (opt_state s) || (id =? ch "v") /\
  very_verbose (opt_state s')
  = very_verbose (opt_state s) || (id =? ch "V") /\
  update (opt_state s') = update (opt_state s) || (id =? ch "u") /\
  help (opt_state s') = help (opt_state s) || asks_for_help (id, arg) /\
  quiet (opt_state s') = quiet (opt_state s) || (id =? ch "q") /\
  modified (opt_state s') = modified (opt_state s) || (id =? ch "M") /\
  recursive (opt_state s')
  = recursive (opt_state s) || (id =? svn_cl__recursive_opt) /\
  nonrecursive (opt_state s')
  = nonrecursive (opt_state s) || (id =? ch "n") /\
  version (opt_state s')
  = version (opt_state s) || (id =? svn_cl__version_opt) /\
  message (opt_state s')
  = (if id =? ch "m" then Some arg else message (opt_state s)) /\
  xml_file (opt_state s')
  = (if id =? svn_cl__xml_file_opt then Some arg
     else xml_file (opt_state s)) /\
  target (opt_state s')
  = (if id =? ch "d" then Some arg else target (opt_state s)) /\
  auth_username (opt_state s')
  = (if id =? svn_cl__auth_username_opt then Some arg
     else auth_username (opt_state s)) /\
  auth_password (opt_state s')
  = (if id =? svn_cl__auth_password_opt then Some arg
     else auth_password (opt_state s)) /\
  extensions (opt_state s')
  = (if id =? ch "x" then Some arg else extensions (opt_state s)) /\
  filedata (opt_state s')
  = (if id =? ch "F" then contents arg else filedata (opt_state s)) /\
  (if id =? ch "r"
   then stored_range arg
        = Some (start_revision (opt_state s'), end_revision (opt_state s'))
   else start_revision (opt_state s') = start_revision (opt_state s) /\
        end_revision (opt_state s') = end_revision (opt_state s)) /\
  fatal svn_string_from_file (id, arg) = false.
Proof.
  unfold switch_opt_id, asks_for_help, fatal, set_opt, say.
  destruct s as [os lg out].
  cbn [opt_state log_under_version_control printed fst snd].
  opt_cases id; intros H; known_code id.
  3: { (* the date switch *)
    rewrite parse_date_fields in H.
    destruct (fields arg) as [|l [|r [|x rest]]]; cbv zeta in H;
      try discriminate H;
      [|destruct (char_is l 0 zero), (char_is r 0 zero)];
      injection H as <-; destruct os; by_fields. }
  2: { (* the revision switch *)
    rewrite parse_revision_stored in H. unfold stored_range in *.
    destruct (rejects arg); [discriminate H|].
    injection H as <-. destruct os; by_fields. }
  9: { (* the file-content switch *)
    destruct (svn_string_from_file arg); [discriminate H|].
    destruct (svn_wc_entry arg) as [err|[|]];
      injection H as <-; destruct os; by_fields. }
  5: { (* -h and -? *)
    injection H as <-. destruct os.
    match goal with
    | E : _ || _ = true |- _ =>
        apply orb_true_iff in E as [E|E]; apply Z.eqb_eq in E; subst id
    end; by_fields. }
  15: { (* the locale switch *)
    destruct (setlocale arg); injection H as <-; destruct os; by_fields. }
  all: injection H as <-; destruct os; by_fields.
Qed.

(** An option after which the loop does not go on is a fatal one. *)
Lemma switch_abort_fatal (id : Z) (arg : string) (s : scan_state)
  (out : list event) :
  switch id arg s = inr out -> fatal svn_string_from_file (id, arg) = true.
Proof.
  unfold switch_opt_id, fatal, set_opt, say.
  cbn [fst snd].
  opt_cases id; intros H; try discriminate H; known_code id.
  - rewrite parse_revision_stored in H. unfold stored_range in H.
    destruct (rejects arg); [reflexivity|discriminate H].
  - rewrite parse_date_fields in H.
    pose proof (fields_not_nil arg) as Hn.
    destruct (fields arg) as [|l [|r [|x rest]]]; cbv zeta in H;
      [contradiction|discriminate H| |reflexivity].
    destruct (char_is l 0 zero), (char_is r 0 zero); discriminate H.
  - destruct (svn_string_from_file arg); [reflexivity|].
    destruct (svn_wc_entry arg) as [err|[|]]; discriminate H.
  - destruct (setlocale arg); discriminate H.
Qed.

(** A flag that options can only set is set at the end when it was set at
    the start or one of the options sets it. *)
Lemma scan_accumulates (get : svn_cl__opt_state_t -> bool)
  (hit : Z * string -> bool) :
  (forall id arg s s',
      switch id arg s = inl s' ->
      get (opt_state s') = get (opt_state s) || hit (id, arg)) ->
  forall (answers : list (Z * string)) (eof : bool) (s s' : scan_state),
    scan answers eof s = inl s' ->
    get (opt_state s') = get (opt_state s) || existsb hit answers.
Proof.
  intros Hstep answers eof.
  induction answers as [|[id arg] answers IH]; intros s s' H.
  - simpl in H. destruct eof; [|discriminate H]. injection H as <-.
    simpl. rewrite orb_false_r. reflexivity.
  - cbn [scan_options] in H.
    destruct (switch_opt_id _ _ _ _ _ id arg s) as [s1|out] eqn:Hs;
      [|discriminate H].
    rewrite (IH _ _ H), (Hstep _ _ _ _ Hs). cbn [existsb].
    rewrite orb_assoc. reflexivity.
Qed.

(** A value that the option with code [c] replaces, and no other option
    touches, is at the end the one the last such option gives. *)
Lemma scan_last_wins (A : Type) (get : svn_cl__opt_state_t -> A) (c : Z)
  (value : string -> A) :
  (forall id arg s s',
      switch id arg s = inl s' ->
      get (opt_state s')
      = if id =? c then value arg else get (opt_state s)) ->
  forall (answers : list (Z * string)) (eof : bool) (s s' : scan_state),
    scan answers eof s = inl s' ->
    get (opt_state s')
    = match last_arg c answers with
      | Some a => value a
      | None => get (opt_state s)
      end.
Proof.
  intros Hstep answers eof.
  induction answers as [|[id arg] answers IH]; intros s s' H.
  - simpl in H. destruct eof; [|discriminate H]. injection H as <-.
    reflexivity.
  - cbn [scan_options] in H.
    destruct (switch_opt_id _ _ _ _ _ id arg s) as [s1|out] eqn:Hs;
      [|discriminate H].
    rewrite (IH _ _ H), (Hstep _ _ _ _ Hs). cbn [last_arg].
    destruct (last_arg c answers); [reflexivity|].
    destruct (id =? c); reflexivity.
Qed.

(** X8.  When the option loop ends without failure, each flag of the
    option state is set exactly when its switch is among the options,
    wherever and however often; the help flag is set by -h, by -? and by
    the version switch. *)
Theorem flags_after_scan :
  forall (answers : list (Z * string)) (eof : bool) (s : scan_state),
    scan answers eof start = inl s ->
    verbose (opt_state s) = has_switch (ch "v") answers /\
    very_verbose (opt_state s) = has_switch (ch "V") answers /\
    update (opt_state s) = has_switch (ch "u") answers /\
    help (opt_state s) = existsb asks_for_help answers /\
    quiet (opt_state s) = has_switch (ch "q") answers /\
    modified (opt_state s) = has_switch (ch "M") answers /\
    force (opt_state s) = has_switch svn_cl__force_opt answers /\
    recursive (opt_state s) = has_switch svn_cl__recursive_opt answers /\
    nonrecursive (opt_state s) = has_switch (ch "n") answers /\
    version (opt_state s) = has_switch svn_cl__version_opt answers.
Proof.
  intros answers eof s H. unfold has_switch.
  repeat split.
  - apply (scan_accumulates verbose (fun o => fst o =? ch "v")) in H;
      [exact H|]. intros id arg a b Hs. apply (switch_fields _ _ _ _ Hs).
  - apply (scan_accumulates very_verbose (fun o => fst o =? ch "V")) in H;
      [exact H|]. intros id arg a b Hs. apply (switch_fields _ _ _ _ Hs).
  - apply (scan_accumulates update (fun o => fst o =? ch "u")) in H;
      [exact H|]. intros id arg a b Hs. apply (switch_fields _ _ _ _ Hs).
  - apply (scan_accumulates help asks_for_help) in H;
      [exact H|]. intros id arg a b Hs. apply (switch_fields _ _ _ _ Hs).
  - apply (scan_accumulates quiet (fun o => fst o =? ch "q")) in H;
      [exact H|]. intros id arg a b Hs. apply (switch_fields _ _ _ _ Hs).
  - apply (scan_accumulates modified (fun o => fst o =? ch "M")) in H;
      [exact H|]. intros id arg a b Hs. apply (switch_fields _ _ _ _ Hs).
  - apply (scan_accumulates force is_force) in H;
      [exact H|]. intros id arg a b Hs. apply (switch_effect _ _ _ _ _ _ _ _ _ Hs).
  - apply (scan_accumulates recursive
             (fun o => fst o =? svn_cl__recursive_opt)) in H;
      [exact H|]. intros id arg a b Hs. apply (switch_fields _ _ _ _ Hs).
  - apply (scan_accumulates nonrecursive (fun o => fst o =? ch "n")) in H;
      [exact H|]. intros id arg a b Hs. apply (switch_fields _ _ _ _ Hs).
  - apply (scan_accumulates version
             (fun o => fst o =? svn_cl__version_opt)) in H;
      [exact H|]. intros id arg a b Hs. apply (switch_fields _ _ _ _ Hs).
Qed.

(** X9.  When the option loop ends without failure, each text of the
    option state is the argument of the last option that sets it, or null
    when there is none; the file data are the contents of the file that the
    last file-content switch names. *)
Theorem last_value_wins :
  forall (answers : list (Z * string)) (eof : bool) (s : scan_state),
    scan answers eof start = inl s ->
    message (opt_state s) = last_arg (ch "m") answers /\
    xml_file (opt_state s) = last_arg svn_cl__xml_file_opt answers /\
    target (opt_state s) = last_arg (ch "d") answers /\
    auth_username (opt_state s)
    = last_arg svn_cl__auth_username_opt answers /\
    auth_password (opt_state s)
    = last_arg svn_cl__auth_password_opt answers /\
    extensions (opt_state s) = last_arg (ch "x") answers /\
    filedata (opt_state s)
    = match last_arg (ch "F") answers with
      | Some path => contents path
      | None => None
      end.
Proof.
  intros answers eof s H.
  repeat split.
  - apply (scan_last_wins _ message (ch "m") Some) in H;
      [rewrite H; destruct (last_arg (ch "m") answers); reflexivity|].
    intros id arg a b Hs. apply (switch_fields _ _ _ _ Hs).
  - apply (scan_last_wins _ xml_file svn_cl__xml_file_opt Some) in H;
      [rewrite H; destruct (last_arg svn_cl__xml_file_opt answers);
       reflexivity|].
    intros id arg a b Hs. apply (switch_fields _ _ _ _ Hs).
  - apply (scan_last_wins _ target (ch "d") Some) in H;
      [rewrite H; destruct (last_arg (ch "d") answers); reflexivity|].
    intros id arg a b Hs. apply (switch_fields _ _ _ _ Hs).
  - apply (scan_last_wins _ auth_username svn_cl__auth_username_opt Some)
      in H;
      [rewrite H; destruct (last_arg svn_cl__auth_username_opt answers);
       reflexivity|].
    intros id arg a b Hs. apply (switch_fields _ _ _ _ Hs).
  - apply (scan_last_wins _ auth_password svn_cl__auth_password_opt Some)
      in H;
      [rewrite H; destruct (last_arg svn_cl__auth_password_opt answers);
       reflexivity|].
    intros id arg a b Hs. apply (switch_fields _ _ _ _ Hs).
  - apply (scan_last_wins _ extensions (ch "x") Some) in H;
      [rewrite H; destruct (last_arg (ch "x") answers); reflexivity|].
    intros id arg a b Hs. apply (switch_fields _ _ _ _ Hs).
  - apply (scan_last_wins _ filedata (ch "F") (fun path => contents path))
      in H;
      [rewrite H; destruct (last_arg (ch "F") answers); reflexivity|].
    intros id arg a b Hs. apply (switch_fields _ _ _ _ Hs).
Qed.

(** The revisions at the end of the loop, from any state. *)
Lemma scan_revisions (answers : list (Z * string)) (eof : bool) :
  forall s s' : scan_state,
    scan answers eof s = inl s' ->
    match last_arg (ch "r") answers with
    | Some arg =>
        stored_range arg
        = Some (start_revision (opt_state s'), end_revision (opt_state s'))
    | None =>
        start_revision (opt_state s') = start_revision (opt_state s) /\
        end_revision (opt_state s') = end_revision (opt_state s)
    end.
Proof.
  induction answers as [|[id arg] answers IH]; intros s s' H.
  - simpl in H. destruct eof; [|discriminate H]. injection H as <-.
    split; reflexivity.
  - cbn [scan_options] in H.
    destruct (switch_opt_id _ _ _ _ _ id arg s) as [s1|out] eqn:Hs;
      [|discriminate H].
    specialize (IH _ _ H). cbn [last_arg].
    destruct (last_arg (ch "r") answers); [exact IH|].
    destruct IH as [-> ->].
    assert (Hr := switch_fields _ _ _ _ Hs).
    do 16 apply proj2 in Hr. apply proj1 in Hr.
    destruct (id =? ch "r"); exact Hr.
Qed.

(** X10.  When the option loop ends without failure, the start and end
    revision of the option state are the two that [parse_revision] stores
    for the argument of the last revision switch, whatever the revision
    switches before it said; when the digit strings of that argument are
    within the native integer range they are what the grammar reads in it.
    Without a revision switch they are the defaults. *)
Theorem last_revision_wins :
  forall (answers : list (Z * string)) (eof : bool) (s : scan_state),
    scan answers eof start = inl s ->
    match last_arg (ch "r") answers with
    | Some arg =>
        (forall os : svn_cl__opt_state_t,
            parse_revision os arg
            = (SVN_NO_ERROR,
               set_end_revision (end_revision (opt_state s))
                 (set_start_revision (start_revision (opt_state s)) os))) /\
        (within_int_range arg = true ->
         RevisionRangeParser arg
         = Some (start_revision (opt_state s), end_revision (opt_state s)))
    | None =>
        start_revision (opt_state s) = SVN_INVALID_REVNUM /\
        end_revision (opt_state s) = 1
    end.
Proof.
  intros answers eof s H. apply scan_revisions in H.
  destruct (last_arg (ch "r") answers) as [arg|]; [|exact H].
  split.
  - intros os. rewrite parse_revision_stored, H. reflexivity.
  - intros Hfit. rewrite <- (stored_range_grammar arg Hfit). exact H.
Qed.

Lemma scan_status (answers : list (Z * string)) (eof : bool) :
  forall s : scan_state,
    is_inl (scan answers eof s)
    = eof && negb (existsb (fatal svn_string_from_file) answers).
Proof.
  induction answers as [|[id arg] answers IH]; intros s.
  - simpl. destruct eof; reflexivity.
  - cbn [scan_options existsb].
    destruct (switch_opt_id _ _ _ _ _ id arg s) as [s1|out] eqn:Hs.
    + rewrite IH.
      assert (Hf := switch_fields _ _ _ _ Hs).
      do 17 apply proj2 in Hf. rewrite Hf. reflexivity.
    + rewrite (switch_abort_fatal _ _ _ _ Hs). simpl.
      rewrite andb_false_r. reflexivity.
Qed.

(** X11.  The option loop ends without failure exactly when the last call
    of [apr_getopt_long] says [APR_EOF] and no option is fatal, a fatal
    option being a revision switch whose argument the grammar rejects, a
    date switch whose argument has a second ':', or a file-content switch
    whose file cannot be read; the state the loop starts from plays no
    part. *)
Theorem scan_fails_on_fatal_options_only :
  forall (answers : list (Z * string)) (eof : bool) (s : scan_state),
    is_inl (scan answers eof s)
    = eof && negb (existsb (fatal svn_string_from_file) answers).
Proof. intros answers eof s. apply scan_status. Qed.

End Option_values.

Lemma flags_after_scan_witness :
  let s :=
    mk_scan (set_help true (set_version true (set_quiet true
               initial_opt_state))) false [] in
  help (opt_state s) = true /\ quiet (opt_state s) = true /\
  verbose (opt_state s) = false.
Proof.
  pose proof (flags_after_scan Sample.svn_parse_date
                Sample.apr_ansi_time_to_apr_time Sample.svn_string_from_file
                Sample.svn_wc_entry Sample.setlocale
                [(ch "q", ""); (svn_cl__version_opt, "")] true
                (mk_scan (set_help true (set_version true (set_quiet true
                            initial_opt_state))) false [])
                eq_refl) as H.
  destruct H as (Hv & _ & _ & Hh & Hq & _).
  cbv zeta. split; [exact Hh|]. split; [exact Hq|exact Hv].
Defined.

Lemma last_value_wins_witness :
  message (set_message (Some "second") initial_opt_state) = Some "second".
Proof.
  apply (last_value_wins Sample.svn_parse_date
           Sample.apr_ansi_time_to_apr_time Sample.svn_string_from_file
           Sample.svn_wc_entry Sample.setlocale
           [(ch "m", "first"); (ch "m", "second")] true
           (mk_scan (set_message (Some "second") initial_opt_state) false [])).
  reflexivity.
Defined.

Lemma last_revision_wins_witness :
  RevisionRangeParser "7:head" = Some (7, SVN_INVALID_REVNUM).
Proof.
  apply (last_revision_wins Sample.svn_parse_date
           Sample.apr_ansi_time_to_apr_time Sample.svn_string_from_file
           Sample.svn_wc_entry Sample.setlocale
           [(ch "r", "3:4"); (ch "v", ""); (ch "r", "7:head")] true
           (mk_scan (set_verbose true
                       (set_end_revision SVN_INVALID_REVNUM
                          (set_start_revision 7 initial_opt_state)))
              false [])
           eq_refl).
  reflexivity.
Defined.

(** ** How a run ends *)

Section Endings.

Variable svn_parse_date : string -> Z.
Variable apr_ansi_time_to_apr_time : Z -> Z.
Variable svn_string_from_file : string -> svn_error_t + string.
Variable svn_wc_entry : string -> svn_error_t + bool.
Variable setlocale : string -> bool.
Variable run : svn_cl__cmd_proc_t -> list string -> svn_cl__opt_state_t ->
               option svn_error_t.

Local Abbreviation scan :=
  (scan_options svn_parse_date apr_ansi_time_to_apr_time
     svn_string_from_file svn_wc_entry setlocale).

Local Abbreviation main_on table :=
  (main svn_parse_date apr_ansi_time_to_apr_time svn_string_from_file
     svn_wc_entry setlocale run table).

Local Abbreviation start := (mk_scan initial_opt_state false []).

(** The status a command routine's answer gives the run. *)
Local Abbreviation status_of answer :=
  (match answer with
   | None => Exit EXIT_SUCCESS
   | Some _ => Exit EXIT_FAILURE
   end).

Lemma dispatch_outcome (table : list svn_cl__cmd_desc_t) (i : nat)
  (args : list string) (s : scan_state) :
  (calls (trace (dispatch run table i args s)) = calls (printed s) /\
   result (dispatch run table i args s) <> Exit EXIT_SUCCESS) \/
  (exists f,
      calls (trace (dispatch run table i args s))
      = (calls (printed s) ++ [Call f args (opt_state s)])%list /\
      result (dispatch run table i args s)
      = status_of (run f args (opt_state s))).
Proof.
  unfold dispatch.
  destruct (log_under_version_control s && negb (force (opt_state s))).
  - left. split; [apply calls_report; reflexivity|discriminate].
  - destruct (option_map cmd_func (nth_error table i)) as [[f|]|];
      [|left; split; [reflexivity|discriminate]..].
    right. exists f.
    destruct (run f args (opt_state s)) as [err|];
      [destruct (negb (is_arg_parsing_error (apr_err err)))|];
      cbn [trace result]; rewrite ?calls_report by reflexivity;
      rewrite calls_app; split; reflexivity.
Qed.

Lemma after_scan_outcome (table : list svn_cl__cmd_desc_t)
  (args : list string) (s : scan_state) :
  (calls (trace (after_scan run table args s)) = calls (printed s) /\
   result (after_scan run table args s) <> Exit EXIT_SUCCESS) \/
  (exists f a,
      calls (trace (after_scan run table args s))
      = (calls (printed s) ++ [Call f a (opt_state s)])%list /\
      result (after_scan run table args s)
      = status_of (run f a (opt_state s))).
Proof.
  unfold after_scan.
  pose proof (feedback_core s) as Hc.
  set (s1 := if negb (quiet (opt_state s)) then say Feedback_init s else s)
    in *.
  unfold core in Hc. injection Hc as Hos _ Hcalls.
  assert (Hd : forall i a,
    (calls (trace (dispatch run table i a s1)) = calls (printed s) /\
     result (dispatch run table i a s1) <> Exit EXIT_SUCCESS) \/
    (exists f a',
        calls (trace (dispatch run table i a s1))
        = (calls (printed s) ++ [Call f a' (opt_state s)])%list /\
        result (dispatch run table i a s1)
        = status_of (run f a' (opt_state s)))).
  { intros i a. rewrite <- Hos, <- Hcalls.
    destruct (dispatch_outcome table i a s1) as [H|[f H]]; eauto. }
  destruct (if help (opt_state s)
            then svn_cl__get_canonical_command table (Some "help")
            else Null) as [|i|].
  - destruct args as [|first_arg args'].
    + left. cbn [trace result]. rewrite calls_app, Hcalls.
      split; [apply app_nil_r|discriminate].
    + destruct (svn_cl__get_canonical_command table (Some first_arg))
        as [|i|].
      * left. cbn [trace result]. rewrite calls_app, Hcalls.
        split; [apply app_nil_r|discriminate].
      * apply Hd.
      * left. cbn [trace result]. split; [exact Hcalls|discriminate].
  - apply Hd.
  - left. cbn [trace result]. split; [exact Hcalls|discriminate].
Qed.

(** The option loop prints reports only, never the usage message. *)
Lemma switch_no_usage (id : Z) (arg : string) (s s' : scan_state) :
  switch_opt_id svn_parse_date apr_ansi_time_to_apr_time
    svn_string_from_file svn_wc_entry setlocale id arg s = inl s' ->
  existsb is_usage (printed s') = existsb is_usage (printed s).
Proof.
  unfold switch_opt_id, set_opt, say. destruct s as [os lg out].
  cbn [opt_state log_under_version_control printed].
  opt_cases id; intros H.
  2: { destruct (parse_revision os arg) as [ret os'].
       destruct (negb (ret =? 0)); [discriminate H|].
       injection H as <-. reflexivity. }
  2: { destruct (parse_date _ _ os arg) as [ret os'].
       destruct (negb (ret =? 0)); [discriminate H|].
       injection H as <-. reflexivity. }
  9: { destruct (svn_string_from_file arg); [discriminate H|].
       destruct (svn_wc_entry arg) as [err|[|]];
         injection H as <-; reflexivity. }
  16: { destruct (setlocale arg); injection H as <-;
          cbn [negb printed]; [reflexivity|].
        rewrite existsb_app. simpl. apply orb_false_r. }
  all: injection H as <-; reflexivity.
Qed.

Lemma scan_no_usage (answers : list (Z * string)) (eof : bool) :
  forall s s' : scan_state,
    scan answers eof s = inl s' ->
    existsb is_usage (printed s') = existsb is_usage (printed s).
Proof.
  induction answers as [|[id arg] answers IH]; intros s s' H.
  - simpl in H. destruct eof; [|discriminate H]. injection H as <-.
    reflexivity.
  - cbn [scan_options] in H.
    destruct (switch_opt_id _ _ _ _ _ id arg s) as [s1|out] eqn:Hs;
      [|discriminate H].
    rewrite (IH _ _ H). apply (switch_no_usage _ _ _ _ Hs).
Qed.

(** A run that comes to the call of the chosen routine does not print the
    usage message. *)
Lemma dispatch_no_usage (table : list svn_cl__cmd_desc_t) (i : nat)
  (args : list string) (s : scan_state) :
  existsb is_usage (printed s) = false ->
  existsb is_usage (trace (dispatch run table i args s)) = false.
Proof.
  intros H. unfold dispatch.
  destruct (log_under_version_control s && negb (force (opt_state s)));
    [cbn [trace]; rewrite existsb_app, H; reflexivity|].
  destruct (option_map cmd_func (nth_error table i)) as [[f|]|];
    [|exact H..].
  destruct (run f args (opt_state s)) as [err|];
    [destruct (negb (is_arg_parsing_error (apr_err err)))|];
    cbn [trace]; rewrite ?existsb_app, H; reflexivity.
Qed.

Lemma after_scan_usage (table : list svn_cl__cmd_desc_t)
  (args : list string) (s : scan_state) :
  existsb is_usage (printed s) = false -> calls (printed s) = [] ->
  existsb is_usage (trace (after_scan run table args s)) = true ->
  calls (trace (after_scan run table args s)) = [] /\
  result (after_scan run table args s) = Exit EXIT_FAILURE.
Proof.
  intros Hu Hc. unfold after_scan.
  set (s1 := if negb (quiet (opt_state s)) then say Feedback_init s else s).
  assert (Hu1 : existsb is_usage (printed s1) = false).
  { subst s1. destruct (negb (quiet (opt_state s))); [|exact Hu].
    unfold say; cbn [printed]. rewrite existsb_app, Hu. reflexivity. }
  assert (Hc1 : calls (printed s1) = []).
  { pose proof (feedback_core s) as Hcore. unfold core in Hcore.
    injection Hcore as _ _ Hcalls. subst s1. rewrite Hcalls. exact Hc. }
  destruct (if help (opt_state s)
            then svn_cl__get_canonical_command table (Some "help")
            else Null) as [|i|].
  - destruct args as [|first_arg args'].
    + intros _. cbn [trace result]. rewrite calls_app, Hc1.
      split; reflexivity.
    + destruct (svn_cl__get_canonical_command table (Some first_arg))
        as [|i|].
      * intros _. cbn [trace result]. rewrite calls_app, Hc1.
        split; reflexivity.
      * rewrite (dispatch_no_usage table i args' s1 Hu1). discriminate.
      * cbn [trace]. rewrite Hu1. discriminate.
  - rewrite (dispatch_no_usage table i args s1 Hu1). discriminate.
  - cbn [trace]. rewrite Hu1. discriminate.
Qed.

(** X12.  In every run, with any command table, [main] goes through
    [cmd_func] to a command routine at most once, and it returns
    [EXIT_SUCCESS] exactly when it did and that routine returned no error.
    The calls of [svn_cl__help] that [main] makes directly, to print the
    usage message, are no such call: a run that prints the usage message
    goes to no routine through [cmd_func] and returns [EXIT_FAILURE]. *)
Theorem success_is_a_successful_dispatch :
  forall (table : list svn_cl__cmd_desc_t) (cl : command_line),
    ((calls (trace (main_on table cl)) = [] /\
      result (main_on table cl) <> Exit EXIT_SUCCESS) \/
     (exists f args os,
         calls (trace (main_on table cl)) = [Call f args os] /\
         result (main_on table cl) = status_of (run f args os))) /\
    (existsb is_usage (trace (main_on table cl)) = true ->
     calls (trace (main_on table cl)) = [] /\
     result (main_on table cl) = Exit EXIT_FAILURE).
Proof.
  intros table cl. unfold main.
  destruct (argc cl <=? 1).
  { split; [left; split; [reflexivity|discriminate]|].
    intros _. split; reflexivity. }
  destruct (scan_options _ _ _ _ _ _ _ _) as [s|out] eqn:Hscan.
  - pose proof (scan_no_usage _ _ _ _ Hscan) as Hu. cbn [printed] in Hu.
    apply scan_from_start in Hscan as (_ & _ & _ & Hc).
    split.
    + destruct (after_scan_outcome table (arguments cl) s)
        as [[H1 H2]|(f & a & H1 & H2)]; rewrite Hc in H1.
      * left. split; assumption.
      * right. exists f, a, (opt_state s). split; assumption.
    + apply (after_scan_usage table (arguments cl) s Hu Hc).
  - apply scan_abort in Hscan. cbn [trace result].
    split; [left; split; [exact Hscan|discriminate]|].
    intros _. split; [exact Hscan|reflexivity].
Qed.

(** X13.  With the declared command table no run of [main] follows a null
    or stray pointer: whatever the command line and the collaborators, it
    returns [EXIT_SUCCESS] or [EXIT_FAILURE]. *)
Theorem main_always_exits :
  forall cl : command_line,
    result (main_on svn_cl__cmd_table cl) = Exit EXIT_SUCCESS \/
    result (main_on svn_cl__cmd_table cl) = Exit EXIT_FAILURE.
Proof.
  intros cl. unfold main.
  destruct (argc cl <=? 1); [right; reflexivity|].
  destruct (scan_options _ _ _ _ _ _ _ _) as [s|out]; [|right; reflexivity].
  unfold after_scan.
  set (s1 := if negb (quiet (opt_state s)) then say Feedback_init s else s).
  assert (Hd : forall c d f a,
    nth_error svn_cl__cmd_table c = Some d -> cmd_func d = Some f ->
    result (dispatch run svn_cl__cmd_table c a s1) = Exit EXIT_SUCCESS \/
    result (dispatch run svn_cl__cmd_table c a s1) = Exit EXIT_FAILURE).
  { intros c d f a Hd Hf. unfold dispatch.
    destruct (log_under_version_control s1 && negb (force (opt_state s1)));
      [right; reflexivity|].
    rewrite Hd. simpl. rewrite Hf.
    destruct (run f a (opt_state s1)) as [err|];
      [destruct (negb (is_arg_parsing_error (apr_err err)))|];
      auto. }
  destruct (help (opt_state s)).
  - change (svn_cl__get_canonical_command svn_cl__cmd_table (Some "help"))
      with (Entry 16).
    eapply Hd; reflexivity.
  - destruct (arguments cl) as [|first_arg args']; [right; reflexivity|].
    destruct (declared_lookup first_arg)
      as [(_ & -> & _)|(i & c & d & e & f & cn & _ & _ & _ & -> & Hd' & Hf & _)].
    + right. reflexivity.
    + apply (Hd c d f args' Hd' Hf).
Qed.

(** X14.  A fatal option anywhere among the options keeps every command
    from running: when a revision switch has an argument that the grammar
    rejects, or a date switch an argument with a second ':', or a
    file-content switch a file that cannot be read, [main] returns
    [EXIT_FAILURE] and calls no command routine, whatever else the command
    line holds. *)
Theorem fatal_option_prevents_the_call :
  forall (table : list svn_cl__cmd_desc_t) (cl : command_line),
    existsb (fatal svn_string_from_file) (options cl) = true ->
    result (main_on table cl) = Exit EXIT_FAILURE /\
    calls (trace (main_on table cl)) = [].
Proof.
  intros table cl Hfatal. unfold main.
  destruct (argc cl <=? 1); [split; reflexivity|].
  pose proof (scan_status svn_parse_date apr_ansi_time_to_apr_time
                svn_string_from_file svn_wc_entry setlocale
                (options cl) (ends_with_eof cl) start) as Hs.
  rewrite Hfatal, andb_false_r in Hs.
  destruct (scan_options _ _ _ _ _ _ _ _) as [s|out] eqn:Hscan;
    [discriminate Hs|].
  split; [reflexivity|]. apply scan_abort in Hscan. exact Hscan.
Qed.

(** X15.  A help switch makes help the command: when -h, -? or the
    version switch is among the options, the option loop ends without
    failure and the check of the log message file does not refuse the run,
    [main] calls [svn_cl__help], once, with all the arguments left, the
    first one included, and with the option state of the scan; the first
    argument is not looked up. *)
Theorem help_switch_runs_help :
  forall (cl : command_line) (s : scan_state),
    1 < argc cl ->
    scan (options cl) (ends_with_eof cl) start = inl s ->
    existsb asks_for_help (options cl) = true ->
    existsb (names_versioned_file svn_wc_entry) (options cl)
    && negb (existsb is_force (options cl)) = false ->
    calls (trace (main_on svn_cl__cmd_table cl))
    = [Call svn_cl__help (arguments cl) (opt_state s)].
Proof.
  intros cl s Hargc Hscan Hhelp Hguard. unfold main.
  destruct (Z.leb_spec (argc cl) 1) as [|_]; [lia|].
  rewrite Hscan.
  assert (Hh : help (opt_state s) = true).
  { apply (scan_accumulates svn_parse_date apr_ansi_time_to_apr_time
             svn_string_from_file svn_wc_entry setlocale
             help asks_for_help) in Hscan; [|
        intros id arg a b Hs; apply (switch_fields _ _ _ _ _ _ _ _ _ Hs)].
    rewrite Hscan, Hhelp. apply orb_true_r. }
  apply scan_from_start in Hscan as (Hf & Hl & _ & Hc).
  unfold after_scan. rewrite Hh.
  change (svn_cl__get_canonical_command svn_cl__cmd_table (Some "help"))
    with (Entry 16).
  cbv beta iota zeta.
  pose proof (feedback_core s) as Hcore.
  set (s1 := if negb (quiet (opt_state s)) then say Feedback_init s else s)
    in *.
  unfold core in Hcore. injection Hcore as Hos Hlog Hcalls.
  rewrite (dispatch_calls run svn_cl__cmd_table 16 (arguments cl) s1
             (command "help" svn_cl__help
      "Display this usage message.
usage: help [SUBCOMMAND1 [SUBCOMMAND2] ...]
"
      [svn_cl__version_opt]) svn_cl__help); try reflexivity.
  - rewrite Hcalls, Hc, Hos. reflexivity.
  - rewrite Hlog, Hos, Hl, Hf. exact Hguard.
Qed.

End Endings.

Lemma success_is_a_successful_dispatch_witness :
  calls (trace (Sample.main (mk_command_line 1 [] true []))) = [] /\
  result (Sample.main (mk_command_line 1 [] true [])) = Exit EXIT_FAILURE.
Proof.
  apply (proj2 (success_is_a_successful_dispatch Sample.svn_parse_date
                  Sample.apr_ansi_time_to_apr_time
                  Sample.svn_string_from_file Sample.svn_wc_entry
                  Sample.setlocale Sample.run svn_cl__cmd_table
                  (mk_command_line 1 [] true []))).
  reflexivity.
Defined.

Lemma fatal_option_prevents_the_call_witness :
  result (Sample.main
            (mk_command_line 6 [(ch "v", ""); (ch "r", "1:2:3")] true ["log"]))
  = Exit EXIT_FAILURE /\
  calls (trace (Sample.main
            (mk_command_line 6 [(ch "v", ""); (ch "r", "1:2:3")] true
               ["log"]))) = [].
Proof.
  apply (fatal_option_prevents_the_call Sample.svn_parse_date
           Sample.apr_ansi_time_to_apr_time Sample.svn_string_from_file
           Sample.svn_wc_entry Sample.setlocale Sample.run
           svn_cl__cmd_table
           (mk_command_line 6 [(ch "v", ""); (ch "r", "1:2:3")] true ["log"])).
  reflexivity.
Defined.

Lemma help_switch_runs_help_witness :
  calls (trace (Sample.main
                  (mk_command_line 3 [(svn_cl__version_opt, "")] true
                     ["bogus"])))
  = [Call svn_cl__help ["bogus"]
       (set_help true (set_version true initial_opt_state))].
Proof.
  apply (help_switch_runs_help Sample.svn_parse_date
           Sample.apr_ansi_time_to_apr_time Sample.svn_string_from_file
           Sample.svn_wc_entry Sample.setlocale Sample.run
           (mk_command_line 3 [(svn_cl__version_opt, "")] true ["bogus"])
           (mk_scan (set_help true (set_version true initial_opt_state))
              false [])); reflexivity.
Defined.

(** ** More on the two parsers *)

Lemma lower_colon (c : ascii) : Ascii.eqb (lower c) ":" = Ascii.eqb c ":".
Proof. destruct c as [[] [] [] [] [] [] [] []]; reflexivity. Qed.

Lemma lower_digit (c : ascii) : isdigit (lower c) = isdigit c.
Proof. destruct c as [[] [] [] [] [] [] [] []]; reflexivity. Qed.

Lemma lower_lower (c : ascii) : lower (lower c) = lower c.
Proof. destruct c as [[] [] [] [] [] [] [] []]; reflexivity. Qed.

Lemma digit_lower (c : ascii) : isdigit c = true -> lower c = c.
Proof.
  destruct c as [[] [] [] [] [] [] [] []]; vm_compute; intros H;
    solve [reflexivity | discriminate H].
Qed.

Lemma fields_lowercase (s : string) :
  fields (lowercase s) = map lowercase (fields s).
Proof.
  induction s as [|c s IH]; simpl; [reflexivity|].
  rewrite lower_colon, IH.
  destruct (Ascii.eqb c ":"); [reflexivity|].
  destruct (fields s); reflexivity.
Qed.

Lemma all_digits_lowercase (s : string) :
  all_digits (lowercase s) = all_digits s.
Proof.
  induction s as [|c s IH]; simpl; [reflexivity|].
  rewrite lower_digit, IH. reflexivity.
Qed.

Lemma lowercase_twice (s : string) : lowercase (lowercase s) = lowercase s.
Proof.
  induction s as [|c s IH]; simpl; [reflexivity|].
  rewrite lower_lower, IH. reflexivity.
Qed.

Lemma lowercase_digits (s : string) :
  all_digits s = true -> lowercase s = s.
Proof.
  induction s as [|c s IH]; simpl; intros H; [reflexivity|].
  apply andb_true_iff in H as [Hc Hs].
  rewrite (digit_lower c Hc), (IH Hs). reflexivity.
Qed.

Lemma valid_half_lowercase (s : string) :
  valid_half (lowercase s) = valid_half s.
Proof.
  unfold valid_half, is_head_form.
  rewrite all_digits_lowercase, lowercase_twice.
  destruct s; reflexivity.
Qed.

Lemma decode_lowercase (s : string) :
  valid_half s = true -> decode (lowercase s) = decode s.
Proof.
  unfold valid_half, decode, is_head_form. rewrite lowercase_twice.
  intros H.
  destruct (String.eqb (lowercase s) "h" || String.eqb (lowercase s) "head")
    eqn:Hh.
  - rewrite !orb_true_r. reflexivity.
  - rewrite orb_false_r in H.
    apply orb_true_iff in H as [Hd|He].
    + rewrite (lowercase_digits s Hd). reflexivity.
    + apply String.eqb_eq in He as ->. reflexivity.
Qed.

Lemma last_of_map (A B : Type) (f : A -> B) (l : list A) (d : A) :
  last (map f l) (f d) = f (last l d).
Proof.
  induction l as [|x l IH]; [reflexivity|].
  destruct l as [|y l]; [reflexivity|]. exact IH.
Qed.

Lemma grammar_lowercase (arg : string) :
  RevisionRangeParser (lowercase arg) = RevisionRangeParser arg.
Proof.
  unfold RevisionRangeParser, rejects.
  rewrite fields_lowercase, length_map.
  assert (Hall : forall l, forallb valid_half (map lowercase l)
                           = forallb valid_half l).
  { induction l as [|x l IH]; simpl; [reflexivity|].
    rewrite valid_half_lowercase, IH. reflexivity. }
  rewrite Hall.
  destruct ((2 <? length (fields arg))%nat); [reflexivity|].
  destruct (forallb valid_half (fields arg)) eqn:Hv; [|reflexivity].
  simpl. rewrite forallb_forall in Hv.
  pose proof (fields_not_nil arg) as Hn.
  destruct (fields arg) as [|x l]; [contradiction|].
  f_equal. f_equal.
  - simpl. apply decode_lowercase. apply Hv. left. reflexivity.
  - change EmptyString with (lowercase EmptyString) at 1.
    rewrite last_of_map. apply decode_lowercase. apply Hv.
    destruct (exists_last (l := x :: l)) as (l' & a & Heq);
      [discriminate|].
    rewrite Heq, last_last. apply in_or_app. right. left. reflexivity.
Qed.

Lemma stored_revision_lowercase (s : string) :
  valid_half s = true -> stored_revision (lowercase s) = stored_revision s.
Proof.
  unfold valid_half, stored_revision, is_head_form. rewrite lowercase_twice.
  intros H.
  destruct (String.eqb (lowercase s) "h" || String.eqb (lowercase s) "head")
    eqn:Hh.
  - rewrite !orb_true_r. reflexivity.
  - rewrite orb_false_r in H.
    apply orb_true_iff in H as [Hd|He].
    + rewrite (lowercase_digits s Hd). reflexivity.
    + apply String.eqb_eq in He as ->. reflexivity.
Qed.

Lemma stored_range_lowercase (arg : string) :
  stored_range (lowercase arg) = stored_range arg.
Proof.
  unfold stored_range, rejects.
  rewrite fields_lowercase, length_map.
  assert (Hall : forall l, forallb valid_half (map lowercase l)
                           = forallb valid_half l).
  { induction l as [|x l IH]; simpl; [reflexivity|].
    rewrite valid_half_lowercase, IH. reflexivity. }
  rewrite Hall.
  destruct ((2 <? length (fields arg))%nat); [reflexivity|].
  destruct (forallb valid_half (fields arg)) eqn:Hv; [|reflexivity].
  simpl. rewrite forallb_forall in Hv.
  pose proof (fields_not_nil arg) as Hn.
  destruct (fields arg) as [|x l]; [contradiction|].
  f_equal. f_equal.
  - simpl. apply stored_revision_lowercase. apply Hv. left. reflexivity.
  - change EmptyString with (lowercase EmptyString) at 1.
    rewrite last_of_map. apply stored_revision_lowercase. apply Hv.
    destruct (exists_last (l := x :: l)) as (l' & a & Heq);
      [discriminate|].
    rewrite Heq, last_last. apply in_or_app. right. left. reflexivity.
Qed.

(** X16.  The revision parser does not look at the case of letters: for
    every argument and every option state it returns for the argument with
    its upper-case letters turned into lower-case ones what it returns for
    the argument itself. *)
Theorem parse_revision_ignores_case :
  forall (os : svn_cl__opt_state_t) (arg : string),
    parse_revision os (lowercase arg) = parse_revision os arg.
Proof.
  intros os arg. rewrite !parse_revision_stored, stored_range_lowercase.
  reflexivity.
Qed.

(** X17.  Each parser writes to its own two fields only: the state
    [parse_revision] returns is the one it was given with the start and
    end revision replaced, and the state [parse_date] returns is the one it
    was given with the start and end date replaced; the revision parser
    leaves the dates alone and the date parser the revisions. *)
Theorem parsers_keep_the_other_fields :
  forall (svn_parse_date : string -> Z) (apr_ansi_time_to_apr_time : Z -> Z)
    (os : svn_cl__opt_state_t) (arg : string),
    let r := snd (parse_revision os arg) in
    let d := snd (parse_date svn_parse_date apr_ansi_time_to_apr_time
                    os arg) in
    r = set_end_revision (end_revision r)
          (set_start_revision (start_revision r) os) /\
    d = set_end_date (end_date d) (set_start_date (start_date d) os).
Proof.
  intros svn_parse_date apr_ansi_time_to_apr_time os arg r d.
  subst r d. split.
  - rewrite parse_revision_stored.
    destruct (stored_range arg) as [[a b]|]; destruct os; reflexivity.
  - rewrite parse_date_fields.
    destruct (fields arg) as [|l [|r [|x rest]]]; cbv zeta;
      try destruct (char_is l 0 zero); try destruct (char_is r 0 zero);
      destruct os; reflexivity.
Qed.

(** ** The generic usage message *)

Lemma append_empty (a : string) : a ++ "" = a.
Proof. induction a as [|x a IH]; simpl; [reflexivity|]. rewrite IH. reflexivity. Qed.

Lemma skipn_cons (A : Type) (l : list A) (k : nat) (x : A) (rest : list A) :
  skipn k l = x :: rest -> nth_error l k = Some x /\ skipn (S k) l = rest.
Proof.
  revert l; induction k as [|k IH]; intros l H.
  - simpl in H. subst l. split; reflexivity.
  - destruct l as [|y l]; [discriminate H|]. apply (IH l H).
Qed.

Section Generic_help.

Variable table : list svn_cl__cmd_desc_t.
Variable option_table : list Apr.getopt_option_t.

(** No two entries have the same name. *)
Hypothesis names_distinct :
  forall i d n,
    nth_error table i = Some d -> name d = Some n ->
    get_cmd_table_entry table (Some n) = Entry i.

(** From any entry on, the loop of [svn_cl__print_generic_help] prints the
    lines of the commands, provided the entry without a name is ahead. *)
Lemma print_commands_lines (rest : list svn_cl__cmd_desc_t) :
  forall k : nat,
    skipn k table = rest ->
    (exists d, In d rest /\ name d = None) ->
    print_commands table option_table rest = Some (command_lines rest).
Proof.
  induction rest as [|d rest IH]; intros k Hk [e [Hin He]]; [destruct Hin|].
  simpl. destruct (name d) as [n|] eqn:Hn; [|reflexivity].
  assert (Hrest : exists d, In d rest /\ name d = None)
    by (destruct Hin as [->|Hin]; [congruence|eauto]).
  destruct (skipn_cons _ _ _ _ _ Hk) as [Hd Hk'].
  rewrite (IH (S k) Hk' Hrest).
  destruct (is_alias d) eqn:Ha; [reflexivity|].
  unfold print_command_info, svn_cl__get_canonical_command.
  rewrite Hn, (names_distinct k d n Hd Hn), canonical_walk_eq, Hd, Ha, Hd, Hn,
    Hk'.
  assert (Hstop : exists d, In d rest
                            /\ (is_alias d = false \/ name d = None))
    by (destruct Hrest as [x [Hx Hx']]; exists x; auto).
  destruct (print_aliases_listed rest Hstop) as [_ ->].
  simpl. rewrite append_empty, ?append_assoc. reflexivity.
Qed.

(** X18.  For a table whose entries have distinct names and that has the
    entry without a name, the generic usage message is the usage text, then
    one line for each entry before the null entry that is not an alias, in
    the order of the table, with the name of the command and in parentheses
    the aliases that follow it, then the note on Subversion; no line is
    printed for an alias. *)
Theorem generic_help_lists_the_commands :
  (exists d, In d table /\ name d = None) ->
  svn_cl__print_generic_help table option_table
  = Some (usage ++ command_lines table ++ nl ++ info ++ nl).
Proof.
  intros Hterm. unfold svn_cl__print_generic_help.
  rewrite (print_commands_lines table 0 eq_refl Hterm). reflexivity.
Qed.

End Generic_help.

Lemma generic_help_lists_the_commands_witness :
  svn_cl__print_generic_help svn_cl__cmd_table svn_cl__options
  = Some (usage ++ command_lines svn_cl__cmd_table ++ nl ++ info ++ nl).
Proof.
  apply (generic_help_lists_the_commands svn_cl__cmd_table svn_cl__options
           declared_names_distinct declared_table_terminated).
Defined.

(** ** Runs without a command *)

Section No_command.

Variable svn_parse_date : string -> Z.
Variable apr_ansi_time_to_apr_time : Z -> Z.
Variable svn_string_from_file : string -> svn_error_t + string.
Variable svn_wc_entry : string -> svn_error_t + bool.
Variable setlocale : string -> bool.
Variable run : svn_cl__cmd_proc_t -> list string -> svn_cl__opt_state_t ->
               option svn_error_t.

(** X19.  When the option loop ends without failure and no switch asks
    for help, [main] needs a command: with no argument left it prints
    "subcommand argument required" on stderr and then the usage message,
    and with a first argument that no entry of the table has as its name it
    prints "unknown command: " and that argument on stderr and then the
    usage message; in both cases these are the last things it does, it
    calls no command routine and returns [EXIT_FAILURE]. *)
Theorem no_command_to_run :
  forall (cl : command_line) (s : scan_state),
    1 < argc cl ->
    scan_options svn_parse_date apr_ansi_time_to_apr_time
      svn_string_from_file svn_wc_entry setlocale
      (options cl) (ends_with_eof cl) (mk_scan initial_opt_state false [])
    = inl s ->
    existsb asks_for_help (options cl) = false ->
    let out := main svn_parse_date apr_ansi_time_to_apr_time
                 svn_string_from_file svn_wc_entry setlocale run
                 svn_cl__cmd_table cl in
    let said :=
      printed
        (if negb (quiet (opt_state s)) then say Feedback_init s else s) in
    match arguments cl with
    | [] =>
        out = mk_outcome (Exit EXIT_FAILURE)
                (said ++ [Fprintf stderr "subcommand argument required";
                          Usage])
    | first_arg :: _ =>
        (forall d, In d svn_cl__cmd_table -> name d <> Some first_arg) ->
        out = mk_outcome (Exit EXIT_FAILURE)
                (said ++ [Fprintf stderr ("unknown command: " ++ first_arg);
                          Usage])
    end /\
    (match arguments cl with
     | [] => True
     | first_arg :: _ =>
         forall d, In d svn_cl__cmd_table -> name d <> Some first_arg
     end -> calls (trace out) = []).
Proof.
  intros cl s Hargc Hscan Hhelp out said. subst out said. unfold main.
  destruct (Z.leb_spec (argc cl) 1) as [|_]; [lia|].
  rewrite Hscan.
  assert (Hh : help (opt_state s) = false).
  { pose proof Hscan as Hscan'.
    apply (scan_accumulates svn_parse_date apr_ansi_time_to_apr_time
             svn_string_from_file svn_wc_entry setlocale
             help asks_for_help) in Hscan'; [|
        intros id arg a b Hs; apply (switch_fields _ _ _ _ _ _ _ _ _ Hs)].
    rewrite Hscan', Hhelp. reflexivity. }
  apply scan_from_start in Hscan as (_ & _ & _ & Hc).
  unfold after_scan. rewrite Hh. cbv beta iota zeta.
  pose proof (feedback_core s) as Hcore.
  set (s1 := if negb (quiet (opt_state s)) then say Feedback_init s else s)
    in *.
  unfold core in Hcore. injection Hcore as _ _ Hcalls. rewrite Hc in Hcalls.
  destruct (arguments cl) as [|first_arg args'].
  - split; [reflexivity|]. intros _. cbn [trace].
    rewrite calls_app, Hcalls. reflexivity.
  - destruct (declared_lookup first_arg)
      as [(_ & -> & Hnone)|(i & c & d & e & f & cn & _ & He & Hname & _)].
    + split; [intros _; reflexivity|]. intros _. cbn [trace].
      rewrite calls_app, Hcalls. reflexivity.
    + split; intros Hnone; exfalso; apply (Hnone e);
        solve [apply (nth_error_In _ _ He) | exact Hname].
Qed.

End No_command.

Lemma no_command_to_run_witness :
  Sample.main (mk_command_line 3 [(ch "q", "")] true ["comit"])
  = mk_outcome (Exit EXIT_FAILURE)
      [Fprintf stderr "unknown command: comit"; Usage].
Proof.
  pose proof (no_command_to_run Sample.svn_parse_date
                Sample.apr_ansi_time_to_apr_time Sample.svn_string_from_file
                Sample.svn_wc_entry Sample.setlocale Sample.run
                (mk_command_line 3 [(ch "q", "")] true ["comit"])
                (mk_scan (set_quiet true initial_opt_state) false [])
                eq_refl eq_refl eq_refl) as H.
  cbv zeta in H. cbn [arguments] in H. destruct H as [H _].
  apply H. intros d Hin Hd.
  destruct (declared_name_found "comit" d Hin Hd) as [i Hi].
  vm_compute in Hi. discriminate Hi.
Defined.

(** ** The report of a command's error *)

Section Command_error.

Variable svn_parse_date : string -> Z.
Variable apr_ansi_time_to_apr_time : Z -> Z.
Variable svn_string_from_file : string -> svn_error_t + string.
Variable svn_wc_entry : string -> svn_error_t + bool.
Variable setlocale : string -> bool.
Variable run : svn_cl__cmd_proc_t -> list string -> svn_cl__opt_state_t ->
               option svn_error_t.

(** What [main] does after a command routine has answered. *)
Local Abbreviation reports answer :=
  (match answer with
   | Some err =>
       if is_arg_parsing_error (apr_err err) then []
       else [Report err stderr]
   | None => []
   end).

Lemma dispatch_trace (table : list svn_cl__cmd_desc_t) (i : nat)
  (args : list string) (s : scan_state) :
  calls (trace (dispatch run table i args s)) = calls (printed s) \/
  exists f,
    trace (dispatch run table i args s)
    = (printed s ++ Call f args (opt_state s)
                    :: reports (run f args (opt_state s)))%list.
Proof.
  unfold dispatch.
  destruct (log_under_version_control s && negb (force (opt_state s))).
  - left. apply calls_report. reflexivity.
  - destruct (option_map cmd_func (nth_error table i)) as [[f|]|];
      [|left; reflexivity..].
    right. exists f.
    destruct (run f args (opt_state s)) as [err|];
      [destruct (is_arg_parsing_error (apr_err err))|];
      cbn [negb trace]; rewrite <- ?app_assoc; reflexivity.
Qed.

(** X20.  A command routine is the last thing [main] runs: in every run
    either no routine is called, or the events of the run are events
    without a call, then the call, then the report on stderr of the error
    the routine returned; nothing follows the call when the routine
    returned no error, and nothing either when the error is an argument
    parsing error, which is not reported again. *)
Theorem call_comes_last :
  forall (table : list svn_cl__cmd_desc_t) (cl : command_line),
    let out := main svn_parse_date apr_ansi_time_to_apr_time
                 svn_string_from_file svn_wc_entry setlocale run table cl in
    calls (trace out) = [] \/
    exists before f args os,
      trace out = (before ++ Call f args os :: reports (run f args os))%list /\
      calls before = [].
Proof.
  intros table cl out. subst out. unfold main.
  destruct (argc cl <=? 1); [left; reflexivity|].
  destruct (scan_options _ _ _ _ _ _ _ _) as [s|o] eqn:Hscan;
    [|left; apply scan_abort in Hscan; exact Hscan].
  apply scan_from_start in Hscan as (_ & _ & _ & Hc).
  unfold after_scan.
  pose proof (feedback_core s) as Hcore.
  set (s1 := if negb (quiet (opt_state s)) then say Feedback_init s else s)
    in *.
  unfold core in Hcore. injection Hcore as _ _ Hcalls. rewrite Hc in Hcalls.
  assert (Hd : forall i a,
    calls (trace (dispatch run table i a s1)) = [] \/
    exists before f args os,
      trace (dispatch run table i a s1)
      = (before ++ Call f args os :: reports (run f args os))%list /\
      calls before = []).
  { intros i a. destruct (dispatch_trace table i a s1) as [H|[f H]].
    - left. rewrite H. exact Hcalls.
    - right. exists (printed s1), f, a, (opt_state s1).
      split; [exact H|exact Hcalls]. }
  destruct (if help (opt_state s)
            then svn_cl__get_canonical_command table (Some "help")
            else Null) as [|i|].
  - destruct (arguments cl) as [|first_arg args'].
    + left. cbn [trace]. rewrite calls_app, Hcalls. reflexivity.
    + destruct (svn_cl__get_canonical_command table (Some first_arg))
        as [|i|].
      * left. cbn [trace]. rewrite calls_app, Hcalls. reflexivity.
      * apply Hd.
      * left. exact Hcalls.
  - apply Hd.
  - left. exact Hcalls.
Qed.

End Command_error.
